(** * The keep-alive registry of gi/keep-alive.cpp

    A shallow embedding of the registry that keeps JS objects reachable on
    behalf of native owners, and the properties of its add / remove / trace /
    finalize / iterate operations.

    Conventions of the embedding:
    - pointers ([JSObject*], [GjsUnrootedFunc], [void*], [Child*]) are
      integers, [NULL] is 0;
    - the [GHashTable] of children is the list of its keys in iteration
      order; where a fresh key lands in that order is decided by the host
      ([place]), so no result depends on it;
    - the private data of the keep-alive JS objects is a finite map from
      object address to [KeepAlive] struct; an object without an entry has a
      NULL private (the class prototype);
    - functions that can emit GLib diagnostics, call back into native code
      or abort the process live in the monad [M]. *)

From Stdlib Require Import ZArith Lia.
From stdpp Require Import gmap strings list.

Local Open Scope Z_scope.

(** ** Data model *)

Definition NULL : Z := 0.

(** [GPOINTER_TO_UINT(p)] is [(guint) (gulong) p]: the low 32 bits. *)
Definition GPOINTER_TO_UINT (p : Z) : Z := p `mod` 2 ^ 32.

(** [struct Child] *)
Record Child := mkChild {
  child : Z;     (* JS::Heap<JSObject*> child *)
  notify : Z;    (* GjsUnrootedFunc notify *)
  data : Z       (* void *data *)
}.

Global Instance Child_eq_dec : EqDecision Child.
Proof. solve_decision. Defined.

(** A key of the hash table is a [Child*]: the address of a slice
    allocation together with the struct stored there.  The table is the only
    owner of these allocations, so the pointee is kept next to the address. *)
Record Key := mkKey {
  addr : Z;
  deref : Child
}.

Global Instance Key_eq_dec : EqDecision Key.
Proof. solve_decision. Defined.

(** [KeepAlive]: the private data of a registry object. *)
Record KeepAlive := mkKeepAlive {
  children : list Key;        (* GHashTable *children *)
  inside_finalize : bool;
  inside_trace : bool
}.

(** What the registry does to the outside, in the order it happens. *)
Inductive event :=
  | EvCritical (check : string)
      (* a g_return_if_fail check failed and was reported *)
  | EvNotify (fn obj user_data : Z) (registered : list Key)
      (* child->notify called with (child->child, child->data); [registered]
         is the children set of the registry at the time of the call, which
         is what the callee sees if it walks the registry *)
  | EvChildFree (p : Z)
      (* child_free(p) *)
  | EvTableDestroy (remaining : list Key)
      (* g_hash_table_destroy, with the keys it still found in the table *)
  | EvPrivFree.
      (* g_slice_free(KeepAlive, priv) *)

(** The process as far as the registry is concerned. *)
Record World := mkWorld {
  privates : gmap Z KeepAlive;  (* JS_GetPrivate of the keep-alive objects *)
  global_slot : option Z;       (* GJS_GLOBAL_SLOT_KEEP_ALIVE when it isObject() *)
  class_defined : bool;         (* the import global has the class property *)
  slice_next : Z;               (* next address g_slice_new0(Child) hands out *)
  log : list event
}.

Definition set_privates (f : gmap Z KeepAlive → gmap Z KeepAlive) (w : World) : World :=
  mkWorld (f (privates w)) (global_slot w) (class_defined w) (slice_next w) (log w).

Definition emit (e : event) (w : World) : World :=
  mkWorld (privates w) (global_slot w) (class_defined w) (slice_next w) (log w ++ [e]).

(** ** The monad of registry operations: state, and process abort *)

Inductive outcome (A : Type) :=
  | Done (a : A) (w : World)
  | Abort (msg : string) (w : World).
Arguments Done {A} a w.
Arguments Abort {A} msg w.

Definition outcome_world {A} (o : outcome A) : World :=
  match o with Done _ w => w | Abort _ w => w end.

Definition M (A : Type) : Type := World → outcome A.

Global Instance M_ret : MRet M := λ A a w, Done a w.
Global Instance M_bind : MBind M := λ A B k m w,
  match m w with
  | Done a w' => k a w'
  | Abort msg w' => Abort msg w'
  end.

Definition modify (f : World → World) : M unit := λ w, Done () (f w).

(** [g_assert] and [g_error] terminate the process. *)
Definition g_error {A} (msg : string) : M A := λ w, Abort msg w.

Definition g_assert (b : bool) (msg : string) : M unit :=
  if b then mret () else g_error msg.

(** ** The host: what GLib and the native callers contribute *)

(** A call a notifier makes back into the registries while it runs. *)
Inductive Call :=
  | CallAdd (keep_alive fn obj user_data : Z)
  | CallRemove (keep_alive fn obj user_data : Z).

Record Host := mkHost {
  (** G_DEBUG=fatal-criticals (or a test harness): a failed
      g_return_if_fail aborts instead of returning. *)
  fatal_criticals : bool;
  (** Position in the iteration order at which the table files a key it
      did not hold yet. *)
  place : Child → list Key → nat;
  (** The body of the native function behind a notifier pointer, as the
      calls it makes on registries when invoked with (handle, data). *)
  callbacks : Z → Z → Z → list Call
}.

(** ** GHashTable, keyed by [child_hash] / [child_equal] *)

Definition child_hash (c : Child) : Z :=
  Z.lxor (Z.lxor (GPOINTER_TO_UINT (notify c)) (GPOINTER_TO_UINT (child c)))
         (GPOINTER_TO_UINT (data c)).

Definition child_equal (child1 child2 : Child) : bool :=
  (data child1 =? data child2) &&
  (child child1 =? child child2) &&
  (notify child1 =? notify child2).

(** [g_hash_table_lookup]: the stored key equal to [c], if any. *)
Definition g_hash_table_lookup (tbl : list Key) (c : Child) : option Key :=
  List.find (λ k, child_equal (deref k) c) tbl.

(** [g_hash_table_remove]: unlinks the key equal to [c]; returns it (the
    table then runs the value destructor on it) with the remaining table. *)
Fixpoint g_hash_table_remove (tbl : list Key) (c : Child) : option (Key * list Key) :=
  match tbl with
  | [] => None
  | k :: rest =>
      if child_equal (deref k) c then Some (k, rest)
      else match g_hash_table_remove rest c with
           | Some (r, rest') => Some (r, k :: rest')
           | None => None
           end
  end.

(** The part of [g_hash_table_replace] for a key that is already there:
    the node keeps its place, the new key takes over, the old one is handed
    back for destruction. *)
Fixpoint replace_existing (tbl : list Key) (k : Key) : option (Key * list Key) :=
  match tbl with
  | [] => None
  | x :: rest =>
      if child_equal (deref x) (deref k) then Some (x, k :: rest)
      else match replace_existing rest k with
           | Some (old, rest') => Some (old, x :: rest')
           | None => None
           end
  end.

Definition insert_at (i : nat) (k : Key) (tbl : list Key) : list Key :=
  take i tbl ++ k :: drop i tbl.

(** [g_hash_table_iter_steal]: unlinks the node the iterator stands on,
    without running any destructor. *)
Fixpoint g_hash_table_iter_steal (cur : Key) (tbl : list Key) : list Key :=
  match tbl with
  | [] => []
  | k :: rest =>
      if addr k =? addr cur then rest
      else k :: g_hash_table_iter_steal cur rest
  end.

Section registry.
Context (host : Host).

(** A failed [g_return_if_fail] (GLib built with its checks, the default):
    a critical is logged and the enclosing function returns; the process
    goes on unless criticals were made fatal. *)
Definition g_critical (check : string) : M unit := λ w,
  let w' := emit (EvCritical check) w in
  if fatal_criticals host then Abort check w' else Done () w'.

(** [g_return_if_fail(expr); rest] *)
Definition g_return_if_fail (expr : bool) (check : string) (rest : M unit) : M unit :=
  if expr then rest else g_critical check.

Definition JS_GetPrivate (obj : Z) : M (option KeepAlive) := λ w,
  Done (privates w !! obj) w.

(** A write through the [priv] pointer of [obj]. *)
Definition update_priv (obj : Z) (f : KeepAlive → KeepAlive) : M unit :=
  modify (set_privates (λ m, match m !! obj with
                             | Some priv => <[obj := f priv]> m
                             | None => m
                             end)).

Definition set_children (tbl : list Key) (priv : KeepAlive) : KeepAlive :=
  mkKeepAlive tbl (inside_finalize priv) (inside_trace priv).
Definition set_inside_finalize (b : bool) (priv : KeepAlive) : KeepAlive :=
  mkKeepAlive (children priv) b (inside_trace priv).
Definition set_inside_trace (b : bool) (priv : KeepAlive) : KeepAlive :=
  mkKeepAlive (children priv) (inside_finalize priv) b.

Definition child_free (p : Z) : M unit := modify (emit (EvChildFree p)).

(** [g_slice_new0(Child)] *)
Definition g_slice_new0 : M Z := λ w,
  Done (slice_next w)
       (mkWorld (privates w) (global_slot w) (class_defined w)
                (slice_next w + 1) (log w)).

(** [g_hash_table_replace(children, k, k)] on a table whose value
    destructor is [child_free] and whose key destructor is NULL. *)
Definition g_hash_table_replace (tbl : list Key) (k : Key) : M (list Key) :=
  match replace_existing tbl k with
  | Some (old, tbl') => child_free (addr old);; mret tbl'
  | None => mret (insert_at (place host (deref k) tbl) k tbl)
  end.

Definition gjs_keep_alive_add_child (keep_alive notify_ obj data_ : Z) : M unit :=
  g_assert (negb (keep_alive =? NULL)) "keep_alive != NULL";;
  priv ← JS_GetPrivate keep_alive;
  match priv with
  | None => g_error "priv != NULL"
  | Some priv =>
      g_return_if_fail (negb (inside_trace priv)) "!priv->inside_trace" (
      g_return_if_fail (negb (inside_finalize priv)) "!priv->inside_finalize" (
        p ← g_slice_new0;
        let new_child := mkKey p (mkChild obj notify_ data_) in
        g_return_if_fail
          (bool_decide (g_hash_table_lookup (children priv) (deref new_child) = None))
          "g_hash_table_lookup(priv->children, child) == NULL" (
          tbl ← g_hash_table_replace (children priv) new_child;
          update_priv keep_alive (set_children tbl))))
  end.

Definition gjs_keep_alive_remove_child (keep_alive notify_ obj data_ : Z) : M unit :=
  g_assert (negb (keep_alive =? NULL)) "keep_alive != NULL";;
  priv ← JS_GetPrivate keep_alive;
  match priv with
  | None => g_error "priv != NULL"
  | Some priv =>
      g_return_if_fail (negb (inside_trace priv)) "!priv->inside_trace" (
      g_return_if_fail (negb (inside_finalize priv)) "!priv->inside_finalize" (
        match g_hash_table_remove (children priv) (mkChild obj notify_ data_) with
        | Some (found, tbl) =>
            update_priv keep_alive (set_children tbl);;
            child_free (addr found)
        | None => mret ()
        end))
  end.

(** *** Notifiers *)

Definition run_call (c : Call) : M unit :=
  match c with
  | CallAdd keep_alive fn obj user_data =>
      gjs_keep_alive_add_child keep_alive fn obj user_data
  | CallRemove keep_alive fn obj user_data =>
      gjs_keep_alive_remove_child keep_alive fn obj user_data
  end.

Fixpoint run_calls (cs : list Call) : M unit :=
  match cs with
  | [] => mret ()
  | c :: cs' => run_call c;; run_calls cs'
  end.

(** [if (child->notify) child->notify(child->child, child->data)], called
    by the finalizer of [keep_alive]. *)
Definition invoke_notify (keep_alive : Z) (c : Child) : M unit :=
  if notify c =? NULL then mret ()
  else
    priv ← JS_GetPrivate keep_alive;
    modify (emit (EvNotify (notify c) (child c) (data c)
                           (from_option children [] priv)));;
    run_calls (callbacks host (notify c) (child c) (data c)).

(** *** keep_alive_finalize *)

(** The [while (g_hash_table_iter_next(&iter, &key, NULL))] loop; [iter] is
    what the iterator has not visited yet, the table itself is the one of
    [obj] in the store. *)
Fixpoint finalize_loop (obj : Z) (iter : list Key) : M unit :=
  match iter with
  | [] => mret ()
  | key :: iter' =>
      update_priv obj (λ priv,
        set_children (g_hash_table_iter_steal key (children priv)) priv);;
      invoke_notify obj (deref key);;
      child_free (addr key);;
      finalize_loop obj iter'
  end.

Fixpoint free_all (ps : list Z) : M unit :=
  match ps with
  | [] => mret ()
  | p :: ps' => child_free p;; free_all ps'
  end.

(** [g_hash_table_destroy(priv->children)]: runs the value destructor on
    whatever is left, then frees the table. *)
Definition g_hash_table_destroy (obj : Z) : M unit :=
  priv ← JS_GetPrivate obj;
  let remaining := from_option children [] priv in
  modify (emit (EvTableDestroy remaining));;
  free_all (addr <$> remaining).

(** [g_slice_free(KeepAlive, priv)]; the object is gone afterwards. *)
Definition free_priv (obj : Z) : M unit :=
  modify (set_privates (delete obj));;
  modify (emit EvPrivFree).

Definition keep_alive_finalize (obj : Z) : M unit :=
  priv ← JS_GetPrivate obj;
  match priv with
  | None => mret ()   (* we are the prototype, not a real instance *)
  | Some priv =>
      update_priv obj (set_inside_finalize true);;
      finalize_loop obj (children priv);;
      g_hash_table_destroy obj;;
      free_priv obj
  end.

(** *** keep_alive_trace *)

(** [JS_CallHeapObjectTracer(tracer, &child->child, ...)]: the collector
    marks the object and, if it moved it, writes the new address into the
    handle.  [tracer] is the forwarding map of the collection. *)
Definition JS_CallHeapObjectTracer (tracer : Z → Z) (c : Child) : Child :=
  mkChild (tracer (child c)) (notify c) (data c).

(** The scan loop.  Returns the table as the scan leaves it and
    [children_to_reinsert] (built with [g_slist_prepend]). *)
Fixpoint trace_scan (tracer : Z → Z) (iter : list Key)
    (children_to_reinsert : list Key) : list Key * list Key :=
  match iter with
  | [] => ([], children_to_reinsert)
  | key :: iter' =>
      let old_key := child (deref key) in
      let key' := mkKey (addr key) (JS_CallHeapObjectTracer tracer (deref key)) in
      if negb (child (deref key') =? old_key) then
        (* g_hash_table_iter_steal; g_slist_prepend *)
        trace_scan tracer iter' (key' :: children_to_reinsert)
      else
        let '(kept, l) := trace_scan tracer iter' children_to_reinsert in
        (key' :: kept, l)
  end.

Definition reinsert (c : Key) (tbl : list Key) : M (list Key) :=
  g_hash_table_replace tbl c.

(** [g_slist_foreach(children_to_reinsert, reinsert, priv->children)] *)
Fixpoint reinsert_all (l : list Key) (tbl : list Key) : M (list Key) :=
  match l with
  | [] => mret tbl
  | c :: l' => tbl' ← reinsert c tbl; reinsert_all l' tbl'
  end.

Definition keep_alive_trace (tracer : Z → Z) (obj : Z) : M unit :=
  priv ← JS_GetPrivate obj;
  match priv with
  | None => mret ()   (* prototype *)
  | Some priv =>
      g_assert (negb (inside_trace priv)) "!priv->inside_trace";;
      update_priv obj (set_inside_trace true);;
      let '(tbl, children_to_reinsert) := trace_scan tracer (children priv) [] in
      tbl' ← reinsert_all children_to_reinsert tbl;
      update_priv obj (set_children tbl');;
      update_priv obj (set_inside_trace false)
  end.

(** *** The per-context singleton *)

(** What the JS engine answers while a registry object is created. *)
Record JSEngine := mkJSEngine {
  has_property_ok : bool;   (* JS_HasProperty succeeded *)
  init_class : Z;           (* JS_InitClass: the prototype, or NULL *)
  new_object : Z            (* JS_NewObject: the object, or NULL *)
}.

Definition set_class_defined (b : bool) (w : World) : World :=
  mkWorld (privates w) (global_slot w) b (slice_next w) (log w).

Definition gjs_set_global_slot (v : option Z) (w : World) : World :=
  mkWorld (privates w) v (class_defined w) (slice_next w) (log w).

(** The context and its import global exist in every [World], so the two
    [g_assert]s on them hold. *)
Definition gjs_keep_alive_new (js : JSEngine) : M Z :=
  if negb (has_property_ok js) then mret NULL
  else
    found ← (λ w, Done (class_defined w) w);
    (if found : bool then mret ()
     else if init_class js =? NULL then g_error "Can't init class"
     else modify (set_class_defined true));;
    let keep_alive := new_object js in
    if keep_alive =? NULL then g_error "Failed to create keep_alive object"
    else
      existing ← JS_GetPrivate keep_alive;
      g_assert (bool_decide (existing = None))
               "priv_from_js(context, keep_alive) == NULL";;
      modify (set_privates <[keep_alive := mkKeepAlive [] false false]>);;
      mret keep_alive.

Definition gjs_keep_alive_create (js : JSEngine) : M Z :=
  keep_alive ← gjs_keep_alive_new js;
  if keep_alive =? NULL
  then g_error "could not create keep_alive on global object, no memory?"
  else
    modify (gjs_set_global_slot (Some keep_alive));;
    mret keep_alive.

Definition gjs_keep_alive_get_global_if_exists : M Z := λ w,
  Done (match global_slot w with Some keep_alive => keep_alive | None => NULL end) w.

Definition gjs_keep_alive_get_global (js : JSEngine) : M Z :=
  keep_alive ← gjs_keep_alive_get_global_if_exists;
  if negb (keep_alive =? NULL) then mret keep_alive
  else gjs_keep_alive_create js.

Definition gjs_keep_alive_add_global_child (js : JSEngine)
    (notify_ child_ data_ : Z) : M unit :=
  keep_alive ← gjs_keep_alive_get_global js;
  gjs_keep_alive_add_child keep_alive notify_ child_ data_.

Definition gjs_keep_alive_remove_global_child (js : JSEngine)
    (notify_ child_ data_ : Z) : M unit :=
  keep_alive ← gjs_keep_alive_get_global js;
  (if keep_alive =? NULL
   then g_error "no keep_alive property on the global object, have you previously added this child?"
   else mret ());;
  gjs_keep_alive_remove_child keep_alive notify_ child_ data_.

(** *** Iteration *)

Definition gjs_keep_alive_iterator_init (keep_alive : Z) : M (list Key) :=
  priv ← JS_GetPrivate keep_alive;
  match priv with
  | None => g_error "priv != NULL"
  | Some priv => mret (children priv)
  end.

(** Returns the out-parameters [( *out_child, *out_data )] when the result
    is [true], and the iterator as the call leaves it. *)
Fixpoint gjs_keep_alive_iterator_next (iter : list Key) (notify_func : Z)
    : option (Z * Z) * list Key :=
  match iter with
  | [] => (None, [])
  | k :: iter' =>
      if negb (notify (deref k) =? notify_func)
      then gjs_keep_alive_iterator_next iter' notify_func
      else (Some (child (deref k), data (deref k)), iter')
  end.

(** The loop of a caller: [while (gjs_keep_alive_iterator_next(...))],
    collecting what each round hands out.  Every round consumes at least
    one node, so [fuel] above the number of nodes is never used up. *)
Fixpoint iterator_drain (fuel : nat) (iter : list Key) (notify_func : Z)
    : list (Z * Z) :=
  match fuel with
  | O => []
  | S fuel' =>
      match gjs_keep_alive_iterator_next iter notify_func with
      | (Some out, iter') => out :: iterator_drain fuel' iter' notify_func
      | (None, _) => []
      end
  end.

(** iterate(notifierFilter) of a caller: [gjs_keep_alive_iterator_init],
    then the loop. *)
Definition keep_alive_iterate (keep_alive notify_func : Z) : M (list (Z * Z)) :=
  iter ← gjs_keep_alive_iterator_init keep_alive;
  mret (iterator_drain (S (length iter)) iter notify_func).

End registry.

(** GLib as it comes: criticals are reported and not fatal, a fresh key is
    filed at the front of the iteration order, notifiers make no calls. *)
Definition default_host : Host :=
  mkHost false (λ _ _, 0%nat) (λ _ _ _, []).

(** The same process under G_DEBUG=fatal-criticals. *)
Definition strict_host : Host :=
  mkHost true (λ _ _, 0%nat) (λ _ _ _, []).

(** ** Reading the log *)

(** The notifier call an event stands for, with the identity
    (notifier, handle, data) packed as a [Child]. *)
Definition notification (e : event) : option (Child * list Key) :=
  match e with
  | EvNotify fn obj user_data registered =>
      Some (mkChild obj fn user_data, registered)
  | _ => None
  end.

(** Events that add, remove and rejected calls can cause. *)
Definition quiet (e : event) : Prop :=
  match e with
  | EvCritical _ | EvChildFree _ => True
  | _ => False
  end.

(** A registry between two calls of the collector. *)
Definition idle (priv : KeepAlive) : Prop :=
  inside_trace priv = false ∧ inside_finalize priv = false.

(** The children form a set: no two keys are [child_equal]. *)
Definition unique_children (tbl : list Key) : Prop :=
  NoDup (deref <$> tbl).

(** ** Vocabulary of the statements *)

(** The world after [g_slice_new0(Child)]. *)
Definition after_alloc (w : World) : World :=
  mkWorld (privates w) (global_slot w) (class_defined w) (slice_next w + 1) (log w).

(** Events of the finalizer's last two steps. *)
Definition releases (e : event) : Prop :=
  match e with
  | EvTableDestroy _ | EvPrivFree => True
  | _ => False
  end.

(** What a call can change: the log grows by quiet events, and a registry
    that is inside its finalizer is left alone. *)
Definition frames (obj : Z) (priv : KeepAlive) (w w' : World) : Prop :=
  privates w' !! obj = Some priv ∧
  ∃ evs, log w' = log w ++ evs ∧ Forall quiet evs.

(** The registry a call is made on. *)
Definition call_target (c : Call) : Z :=
  match c with
  | CallAdd keep_alive _ _ _ | CallRemove keep_alive _ _ _ => keep_alive
  end.

(** Every call a notifier of the host makes goes to a registry object
    that exists. *)
Definition callbacks_live (host : Host) (w : World) : Prop :=
  ∀ fn obj user_data,
    Forall (λ c, call_target c ≠ NULL ∧ is_Some (privates w !! call_target c))
           (callbacks host fn obj user_data).

(** No registry object disappears between [w] and [w']. *)
Definition persists (w w' : World) : Prop :=
  ∀ obj, is_Some (privates w !! obj) → is_Some (privates w' !! obj).

(** The notifier calls the finalizer of a table makes, in order: the
    identity of the entry and the children still registered at that time. *)
Fixpoint expected_notifications (iter : list Key) : list (Child * list Key) :=
  match iter with
  | [] => []
  | key :: iter' =>
      (if notify (deref key) =? NULL then [] else [(deref key, iter')])
      ++ expected_notifications iter'
  end.

(** What a caller gets out of an entry: [( *out_child, *out_data )]. *)
Definition handle_and_data (k : Key) : Z * Z :=
  (child (deref k), data (deref k)).

(** An entry as the collector leaves it, and whether it moved. *)
Definition relocate (tracer : Z → Z) (k : Key) : Key :=
  mkKey (addr k) (JS_CallHeapObjectTracer tracer (deref k)).

Definition moved (tracer : Z → Z) (k : Key) : Prop :=
  tracer (child (deref k)) ≠ child (deref k).

Global Instance moved_dec tracer k : Decision (moved tracer k).
Proof. unfold moved. apply _. Defined.

(** What filing a key does to the set of identities. *)
Definition files (k : list Key) (tbl tbl' : list Key) : Prop :=
  (∀ c, c ∈ deref <$> tbl' ↔ c ∈ deref <$> k ∨ c ∈ deref <$> tbl) ∧
  (∀ x, x ∈ tbl' → x ∈ k ∨ x ∈ tbl) ∧
  (unique_children tbl → unique_children tbl').

(** The world after the engine has created the registry object. *)
Definition with_new_registry (keep_alive : Z) (w : World) : World :=
  mkWorld (<[keep_alive := mkKeepAlive [] false false]> (privates w))
          (Some keep_alive) true (slice_next w) (log w).

(** A registry at object 100 with three children: two registered under
    notifier 7, one under notifier 8. *)
Definition sample_children : list Key :=
  [ mkKey 1002 (mkChild 3 8 13);
    mkKey 1001 (mkChild 2 7 12);
    mkKey 1000 (mkChild 1 7 11) ].

Definition sample_registry : KeepAlive := mkKeepAlive sample_children false false.

Definition sample_world : World :=
  mkWorld {[ 100 := sample_registry ]} None false 1003 [].

(** The same registry while its finalizer runs. *)
Definition finalizing_world : World :=
  mkWorld {[ 100 := mkKeepAlive sample_children true false ]} None false 1003 [].

(** A host whose notifiers call back into registry 100: each tries to
    register its handle again and to detach the child of notifier 7. *)
Definition reentrant_host : Host :=
  mkHost false (λ _ _, 0%nat)
         (λ fn obj user_data,
            [CallAdd 100 fn obj user_data; CallRemove 100 7 1 11]).

(** A registry with one child that has no notifier. *)
Definition silent_world : World :=
  mkWorld {[ 100 := mkKeepAlive [mkKey 1001 (mkChild 2 NULL 12);
                                 mkKey 1000 (mkChild 1 7 11)] false false ]}
          None false 1002 [].

(** A collector that shifts objects by one slot: 1 moves to 2, 2 to 3. *)
Definition sliding_tracer (p : Z) : Z :=
  if p =? 1 then 2 else if p =? 2 then 3 else p.

(** A collector that moves object 1 to the fresh address 9. *)
Definition evacuating_tracer (p : Z) : Z :=
  if p =? 1 then 9 else p.

(** Two children of the same owner (notifier 7, data 5) at handles 1, 2. *)
Definition neighbours_world : World :=
  mkWorld {[ 100 := mkKeepAlive [mkKey 1000 (mkChild 1 7 5);
                                 mkKey 1001 (mkChild 2 7 5)] false false ]}
          None false 1002 [].

(** The log of the drain loop of the finalizer when no notifier calls
    back: per entry the notifier call (if there is a notifier), then the
    free. *)
Fixpoint drain_events (iter : list Key) : list event :=
  match iter with
  | [] => []
  | key :: iter' =>
      (if notify (deref key) =? NULL then []
       else [EvNotify (notify (deref key)) (child (deref key))
                      (data (deref key)) iter'])
      ++ EvChildFree (addr key) :: drain_events iter'
  end.

(** A host whose notifiers make no calls on registries. *)
Definition quiet_host (host : Host) : Prop :=
  ∀ fn obj user_data, callbacks host fn obj user_data = [].

(** The collector forwards no two children of the table to one identity. *)
Definition forwards_apart (tracer : Z → Z) (tbl : list Key) : Prop :=
  ∀ x y, x ∈ tbl → y ∈ tbl →
    JS_CallHeapObjectTracer tracer (deref x) =
    JS_CallHeapObjectTracer tracer (deref y) →
    deref x = deref y.

(** The engine can create the registry object of a context in [w] ... *)
Definition engine_works (js : JSEngine) (w : World) : Prop :=
  has_property_ok js = true ∧
  (class_defined w = true ∨ init_class js ≠ NULL) ∧
  new_object js ≠ NULL ∧
  privates w !! new_object js = None.

(** ... or one of its steps fails. *)
Definition engine_fails (js : JSEngine) (w : World) : Prop :=
  has_property_ok js = false ∨
  (class_defined w = false ∧ init_class js = NULL) ∨
  new_object js = NULL ∨
  is_Some (privates w !! new_object js).

(** The context has no registry recorded in its slot. *)
Definition no_registry_yet (w : World) : Prop :=
  global_slot w = None ∨ global_slot w = Some NULL.

(** The footprint of a call on registry [keep_alive]: the log grows by
    quiet events, the slot stays, other registries stay. *)
Definition touches_only (keep_alive : Z) (w w' : World) : Prop :=
  (∃ evs, log w' = log w ++ evs ∧ Forall quiet evs) ∧
  global_slot w' = global_slot w ∧
  ∀ obj, obj ≠ keep_alive → privates w' !! obj = privates w !! obj.

(** A world with two registries, 100 and 200. *)
Definition two_registries : World :=
  mkWorld {[ 100 := sample_registry;
             200 := mkKeepAlive [mkKey 2000 (mkChild 5 7 15)] false false ]}
          None false 2001 [].

(** The sample registry while the collector traces it. *)
Definition tracing_world : World :=
  mkWorld {[ 100 := mkKeepAlive sample_children false true ]} None false 1003 [].

(** * Properties *)

(** ** Hash and equality *)

Lemma child_equal_spec (c1 c2 : Child) :
  child_equal c1 c2 = true ↔ c1 = c2.
Proof.
  unfold child_equal. destruct c1 as [o1 n1 d1], c2 as [o2 n2 d2]; simpl.
  rewrite !andb_true_iff, !Z.eqb_eq. split.
  - intros [[-> ->] ->]. reflexivity.
  - intros [= -> -> ->]. auto.
Qed.

Lemma child_equal_refl (c : Child) : child_equal c c = true.
Proof. by apply child_equal_spec. Qed.

Lemma child_equal_false (c1 c2 : Child) :
  child_equal c1 c2 = false ↔ c1 ≠ c2.
Proof.
  rewrite <- child_equal_spec. destruct (child_equal c1 c2); split; congruence.
Qed.

(** C9: keys that [child_equal] identifies have the same [child_hash]. *)
Theorem child_hash_respects_child_equal (c1 c2 : Child) :
  child_equal c1 c2 = true → child_hash c1 = child_hash c2.
Proof.
  unfold child_equal, child_hash.
  rewrite !andb_true_iff, !Z.eqb_eq.
  intros [[Hdata Hchild] Hnotify].
  rewrite Hdata, Hchild, Hnotify. reflexivity.
Qed.

(** C9 at two copies of one triple. *)
Lemma child_hash_respects_child_equal_witness :
  child_equal (mkChild 4096 77 12) (mkChild 4096 77 12) = true ∧
  child_hash (mkChild 4096 77 12) = child_hash (mkChild 4096 77 12).
Proof.
  split; [reflexivity |].
  apply (child_hash_respects_child_equal (mkChild 4096 77 12) (mkChild 4096 77 12)).
  reflexivity.
Defined.

(** X18: the hash keeps the low 32 bits only: it is a [guint]. *)
Lemma child_hash_range (c : Child) : 0 ≤ child_hash c < 2 ^ 32.
Proof.
  unfold child_hash, GPOINTER_TO_UINT.
  assert (Hb : ∀ a b, 0 ≤ a < 2 ^ 32 → 0 ≤ b < 2 ^ 32 → 0 ≤ Z.lxor a b < 2 ^ 32).
  { intros a b [Ha0 Ha] [Hb0 Hb]. split; [by apply Z.lxor_nonneg |].
    destruct (decide (Z.lxor a b = 0)) as [-> | Hne]; [lia |].
    assert (0 < Z.lxor a b) by (pose proof (proj2 (Z.lxor_nonneg a b) (conj (λ _, Hb0) (λ _, Ha0))); lia).
    apply Z.log2_lt_pow2; [done |].
    eapply Z.le_lt_trans; [by apply Z.log2_lxor |].
    apply Z.max_lub_lt.
    - destruct (decide (a = 0)) as [-> | ?]; [simpl; lia |].
      apply Z.log2_lt_pow2; lia.
    - destruct (decide (b = 0)) as [-> | ?]; [simpl; lia |].
      apply Z.log2_lt_pow2; lia. }
  apply Hb; [apply Hb |]; apply Z.mod_pos_bound; lia.
Qed.

(** ** Facts about the table *)

Lemma lookup_None_iff (tbl : list Key) (c : Child) :
  g_hash_table_lookup tbl c = None ↔ c ∉ deref <$> tbl.
Proof.
  unfold g_hash_table_lookup. induction tbl as [| k tbl IH]; simpl.
  - split; [intros _; apply not_elem_of_nil | done].
  - rewrite not_elem_of_cons. destruct (child_equal (deref k) c) eqn:E.
    + apply child_equal_spec in E. split; [done | intros [? _]; congruence].
    + apply child_equal_false in E. rewrite IH.
      split; [intros ?; split; [intros Heq; by apply E | done] | by intros [_ ?]].
Qed.

Lemma lookup_Some_elem (tbl : list Key) (c : Child) (k : Key) :
  g_hash_table_lookup tbl c = Some k → k ∈ tbl ∧ deref k = c.
Proof.
  unfold g_hash_table_lookup. intros H. apply find_some in H as [Hin Heq].
  apply child_equal_spec in Heq. split; [by apply list_elem_of_In | done].
Qed.

Lemma remove_None_iff (tbl : list Key) (c : Child) :
  g_hash_table_remove tbl c = None ↔ c ∉ deref <$> tbl.
Proof.
  induction tbl as [| k tbl IH]; simpl.
  - split; [intros _; apply not_elem_of_nil | done].
  - rewrite not_elem_of_cons. destruct (child_equal (deref k) c) eqn:E.
    + apply child_equal_spec in E. split; [done | intros [? _]; congruence].
    + apply child_equal_false in E.
      destruct (g_hash_table_remove tbl c) as [[r rest'] |].
      * split; [done |]. intros [_ H]. by apply IH in H.
      * split; [| done]. intros _. split; [intros Heq; by apply E | by apply IH].
Qed.

Lemma replace_existing_None (tbl : list Key) (k : Key) :
  replace_existing tbl k = None ↔ deref k ∉ deref <$> tbl.
Proof.
  induction tbl as [| x tbl IH]; simpl.
  - split; [intros _; apply not_elem_of_nil | done].
  - rewrite not_elem_of_cons. destruct (child_equal (deref x) (deref k)) eqn:E.
    + apply child_equal_spec in E. split; [done | intros [? _]; congruence].
    + apply child_equal_false in E.
      destruct (replace_existing tbl k) as [[old rest'] |].
      * split; [done |]. intros [_ H]. by apply IH in H.
      * split; [| done]. intros _. split; [intros Heq; by apply E | by apply IH].
Qed.

Lemma replace_existing_Some (tbl tbl' : list Key) (k old : Key) :
  replace_existing tbl k = Some (old, tbl') →
  deref <$> tbl' = deref <$> tbl ∧ deref k ∈ deref <$> tbl ∧
  (∀ x, x ∈ tbl' → x = k ∨ x ∈ tbl).
Proof.
  revert tbl'. induction tbl as [| x tbl IH]; intros tbl'; simpl; [done |].
  destruct (child_equal (deref x) (deref k)) eqn:E.
  - apply child_equal_spec in E. intros [= <- <-]. rewrite !fmap_cons, E.
    split; [done |]. split; [apply list_elem_of_here |].
    intros y [-> | Hy]%elem_of_cons; [by left | right].
    by apply list_elem_of_further.
  - destruct (replace_existing tbl k) as [[old' rest'] |]; [| done].
    intros [= <- <-]. destruct (IH rest' eq_refl) as (Heq & Hin & Hsub).
    rewrite !fmap_cons, Heq.
    split; [done |]. split; [by apply list_elem_of_further |].
    intros y [-> | Hy]%elem_of_cons; [right; apply list_elem_of_here |].
    destruct (Hsub y Hy) as [-> | Hy']; [by left | right].
    by apply list_elem_of_further.
Qed.

Lemma insert_at_perm (i : nat) (k : Key) (tbl : list Key) :
  insert_at i k tbl ≡ₚ k :: tbl.
Proof.
  unfold insert_at. rewrite <- Permutation_middle. by rewrite take_drop.
Qed.

Lemma remove_Some_spec (tbl rest : list Key) (c : Child) (found : Key) :
  unique_children tbl →
  g_hash_table_remove tbl c = Some (found, rest) →
  deref found = c ∧ found ∈ tbl ∧ (c ∉ deref <$> rest) ∧
  S (length rest) = length tbl.
Proof.
  unfold unique_children. revert rest.
  induction tbl as [| k tbl IH]; intros rest Hnd; simpl; [done |].
  rewrite fmap_cons in Hnd. apply NoDup_cons in Hnd as [Hk Hnd].
  destruct (child_equal (deref k) c) eqn:E.
  - apply child_equal_spec in E. intros [= <- <-].
    split; [done |]. split; [apply list_elem_of_here |]. split; [congruence | done].
  - apply child_equal_false in E.
    destruct (g_hash_table_remove tbl c) as [[r rest'] |]; [| done].
    intros [= <- <-]. destruct (IH rest' Hnd eq_refl) as (Hd & Hin & Hout & Hlen).
    split; [done |]. split; [by apply list_elem_of_further |].
    split; [| simpl; by rewrite Hlen].
    rewrite fmap_cons, not_elem_of_cons. split; [congruence | done].
Qed.

Lemma unique_children_inj (tbl : list Key) (x y : Key) :
  unique_children tbl → x ∈ tbl → y ∈ tbl → deref x = deref y → x = y.
Proof.
  unfold unique_children. induction tbl as [| k tbl IH]; [by intros _ ?%elem_of_nil |].
  rewrite fmap_cons, NoDup_cons. intros [Hk Hnd].
  intros [-> | Hx]%elem_of_cons [-> | Hy]%elem_of_cons Heq.
  - done.
  - exfalso. apply Hk. rewrite Heq. by apply list_elem_of_fmap_2.
  - exfalso. apply Hk. rewrite <- Heq. by apply list_elem_of_fmap_2.
  - by apply IH.
Qed.

(** ** add and remove *)

Ltac run_M :=
  unfold g_assert, g_return_if_fail, JS_GetPrivate, child_free, g_slice_new0;
  unfold g_error, modify, mbind, M_bind, mret, M_ret; cbv beta iota.

Section add_remove.
Context (host : Host).

Lemma NULL_eqb (p : Z) : p ≠ NULL → (p =? NULL) = false.
Proof. intros H. by apply Z.eqb_neq. Qed.

(** The guards of add, one after the other. *)
Lemma add_child_cases (w : World) (keep_alive notify_ obj data_ : Z) (priv : KeepAlive) :
  keep_alive ≠ NULL →
  privates w !! keep_alive = Some priv →
  gjs_keep_alive_add_child host keep_alive notify_ obj data_ w =
    if inside_trace priv then g_critical host "!priv->inside_trace" w
    else if inside_finalize priv then g_critical host "!priv->inside_finalize" w
    else match g_hash_table_lookup (children priv) (mkChild obj notify_ data_) with
         | Some _ =>
             g_critical host "g_hash_table_lookup(priv->children, child) == NULL"
                        (after_alloc w)
         | None =>
             (tbl ← g_hash_table_replace host (children priv)
                      (mkKey (slice_next w) (mkChild obj notify_ data_));
              update_priv keep_alive (set_children tbl)) (after_alloc w)
         end.
Proof.
  intros Hnn Hpriv. unfold gjs_keep_alive_add_child. run_M.
  rewrite (NULL_eqb _ Hnn). cbn [negb].
  rewrite Hpriv. cbv beta iota.
  destruct (inside_trace priv); cbn [negb]; [done |].
  destruct (inside_finalize priv); cbn [negb]; [done |].
  cbn [deref]. case_bool_decide as E.
  - by rewrite E.
  - by destruct (g_hash_table_lookup _ _).
Qed.

Lemma remove_child_cases (w : World) (keep_alive notify_ obj data_ : Z) (priv : KeepAlive) :
  keep_alive ≠ NULL →
  privates w !! keep_alive = Some priv →
  gjs_keep_alive_remove_child host keep_alive notify_ obj data_ w =
    if inside_trace priv then g_critical host "!priv->inside_trace" w
    else if inside_finalize priv then g_critical host "!priv->inside_finalize" w
    else match g_hash_table_remove (children priv) (mkChild obj notify_ data_) with
         | Some (found, tbl) =>
             Done () (emit (EvChildFree (addr found))
                        (set_privates <[keep_alive := set_children tbl priv]> w))
         | None => Done () w
         end.
Proof.
  intros Hnn Hpriv. unfold gjs_keep_alive_remove_child. run_M.
  rewrite (NULL_eqb _ Hnn). cbn [negb].
  rewrite Hpriv. cbv beta iota.
  destruct (inside_trace priv); cbn [negb]; [done |].
  destruct (inside_finalize priv); cbn [negb]; [done |].
  destruct (g_hash_table_remove _ _) as [[found tbl] |]; [| done].
  unfold update_priv. run_M. unfold set_privates. by rewrite Hpriv.
Qed.

Lemma critical_privates (check : string) (w : World) :
  privates (outcome_world (g_critical host check w)) = privates w.
Proof. unfold g_critical. by destruct (fatal_criticals host). Qed.

(** C3 (as the code has it): add and remove called while the registry is
    inside trace or inside finalize are refused by a g_return_if_fail check.
    The check reports a critical and the call returns to its caller with the
    registry untouched; the process ends only under fatal criticals. *)
Theorem reentrant_add_remove_reported
    (w : World) (keep_alive notify_ obj data_ : Z) (priv : KeepAlive) :
  keep_alive ≠ NULL →
  privates w !! keep_alive = Some priv →
  inside_trace priv = true ∨ inside_finalize priv = true →
  ∃ check : string,
    let w' := emit (EvCritical check) w in
    gjs_keep_alive_add_child host keep_alive notify_ obj data_ w =
      (if fatal_criticals host then Abort check w' else Done () w') ∧
    gjs_keep_alive_remove_child host keep_alive notify_ obj data_ w =
      (if fatal_criticals host then Abort check w' else Done () w') ∧
    privates w' = privates w.
Proof.
  intros Hnn Hpriv Hin.
  rewrite (add_child_cases _ _ _ _ _ _ Hnn Hpriv).
  rewrite (remove_child_cases _ _ _ _ _ _ Hnn Hpriv).
  destruct (inside_trace priv) eqn:Et.
  - exists "!priv->inside_trace". by unfold g_critical.
  - destruct Hin as [? | Hf]; [done |]. rewrite Hf.
    exists "!priv->inside_finalize". by unfold g_critical.
Qed.

(** C2 (as the code has it): adding a triple that is already registered
    is refused by a g_return_if_fail check (on an idle registry the lookup
    check, after the new [Child] was allocated): a critical is reported and
    the call returns early; the children and the registered key stay as
    they were.  The process ends only under fatal criticals. *)
Theorem duplicate_add_reported
    (w : World) (keep_alive notify_ obj data_ : Z) (priv : KeepAlive) (k : Key) :
  keep_alive ≠ NULL →
  privates w !! keep_alive = Some priv →
  k ∈ children priv →
  deref k = mkChild obj notify_ data_ →
  ∃ (check : string) (w0 : World),
    let w' := emit (EvCritical check) w0 in
    gjs_keep_alive_add_child host keep_alive notify_ obj data_ w =
      (if fatal_criticals host then Abort check w' else Done () w') ∧
    privates w' = privates w ∧
    privates w' !! keep_alive = Some priv ∧
    (idle priv →
     check = "g_hash_table_lookup(priv->children, child) == NULL" ∧
     w0 = after_alloc w).
Proof.
  intros Hnn Hpriv Hk Hd.
  rewrite (add_child_cases _ _ _ _ _ _ Hnn Hpriv).
  destruct (inside_trace priv) eqn:Ht.
  { exists "!priv->inside_trace", w. unfold g_critical.
    do 3 (split; [done |]). intros [? _]. congruence. }
  destruct (inside_finalize priv) eqn:Hf.
  { exists "!priv->inside_finalize", w. unfold g_critical.
    do 3 (split; [done |]). intros [_ ?]. congruence. }
  destruct (g_hash_table_lookup _ _) eqn:E.
  - exists "g_hash_table_lookup(priv->children, child) == NULL", (after_alloc w).
    by unfold g_critical.
  - apply lookup_None_iff in E. exfalso. apply E.
    rewrite <- Hd. by apply list_elem_of_fmap_2.
Qed.

(** C10: whichever guard of add fails, the store of registries comes out
    as it went in; under GLib's default the call returns to its caller. *)
Theorem add_early_return_keeps_entries
    (w : World) (keep_alive notify_ obj data_ : Z) (priv : KeepAlive) :
  keep_alive ≠ NULL →
  privates w !! keep_alive = Some priv →
  inside_trace priv = true ∨ inside_finalize priv = true ∨
    mkChild obj notify_ data_ ∈ deref <$> children priv →
  let result := gjs_keep_alive_add_child host keep_alive notify_ obj data_ w in
  privates (outcome_world result) = privates w ∧
  privates (outcome_world result) !! keep_alive = Some priv ∧
  (fatal_criticals host = false → ∃ w', result = Done () w').
Proof.
  intros Hnn Hpriv Hguard result. subst result.
  rewrite (add_child_cases _ _ _ _ _ _ Hnn Hpriv).
  assert (Hc : ∀ check w0, privates w0 = privates w →
    privates (outcome_world (g_critical host check w0)) = privates w ∧
    privates (outcome_world (g_critical host check w0)) !! keep_alive = Some priv ∧
    (fatal_criticals host = false → ∃ w', g_critical host check w0 = Done () w')).
  { intros check w0 Hw0. rewrite critical_privates, Hw0. repeat split; [done |].
    intros Hnf. unfold g_critical. rewrite Hnf. eauto. }
  destruct (inside_trace priv); [by apply Hc |].
  destruct (inside_finalize priv); [by apply Hc |].
  destruct Hguard as [? | [? | Hin]]; [done | done |].
  destruct (g_hash_table_lookup _ _) eqn:E; [by apply Hc |].
  by apply lookup_None_iff in E.
Qed.

(** When the table has no key to unlink, remove leaves the world alone. *)
Lemma remove_child_miss
    (w : World) (keep_alive notify_ obj data_ : Z) (priv : KeepAlive) :
  keep_alive ≠ NULL →
  privates w !! keep_alive = Some priv →
  idle priv →
  g_hash_table_remove (children priv) (mkChild obj notify_ data_) = None →
  gjs_keep_alive_remove_child host keep_alive notify_ obj data_ w = Done () w.
Proof.
  intros Hnn Hpriv [Ht Hf] Hmiss.
  by rewrite (remove_child_cases _ _ _ _ _ _ Hnn Hpriv), Ht, Hf, Hmiss.
Qed.

(** C7: removing a triple that is not registered returns normally and
    changes nothing: no key leaves the table, nothing is logged, so no
    notifier runs and nothing is freed. *)
Theorem remove_absent_is_noop
    (w : World) (keep_alive notify_ obj data_ : Z) (priv : KeepAlive) :
  keep_alive ≠ NULL →
  privates w !! keep_alive = Some priv →
  idle priv →
  mkChild obj notify_ data_ ∉ deref <$> children priv →
  gjs_keep_alive_remove_child host keep_alive notify_ obj data_ w = Done () w.
Proof.
  intros Hnn Hpriv Hidle Habsent.
  apply (remove_child_miss w keep_alive notify_ obj data_ priv Hnn Hpriv Hidle).
  by apply remove_None_iff.
Qed.

(** The successful path of add: a triple that is not registered yet gets
    its own allocation and is filed; the children stay a set. *)
Lemma add_child_registers
    (w : World) (keep_alive notify_ obj data_ : Z) (priv : KeepAlive) :
  keep_alive ≠ NULL →
  privates w !! keep_alive = Some priv →
  idle priv →
  mkChild obj notify_ data_ ∉ deref <$> children priv →
  let c := mkChild obj notify_ data_ in
  let tbl := insert_at (place host c (children priv)) (mkKey (slice_next w) c)
                       (children priv) in
  gjs_keep_alive_add_child host keep_alive notify_ obj data_ w =
    Done () (set_privates <[keep_alive := set_children tbl priv]> (after_alloc w)) ∧
  tbl ≡ₚ mkKey (slice_next w) c :: children priv ∧
  (unique_children (children priv) → unique_children tbl).
Proof.
  intros Hnn Hpriv [Ht Hf] Hnew. cbv zeta.
  set (c := mkChild obj notify_ data_) in *.
  set (k := mkKey (slice_next w) c).
  rewrite (add_child_cases _ _ _ _ _ _ Hnn Hpriv), Ht, Hf.
  pose proof Hnew as Hlookup. apply lookup_None_iff in Hlookup.
  fold c. rewrite Hlookup. fold k.
  split; [| split].
  - unfold g_hash_table_replace.
    rewrite (proj2 (replace_existing_None (children priv) k)) by done.
    run_M. unfold update_priv. run_M. unfold set_privates.
    cbn [after_alloc privates]. by rewrite Hpriv.
  - apply insert_at_perm.
  - unfold unique_children. rewrite insert_at_perm, fmap_cons. intros Hnd.
    by apply NoDup_cons.
Qed.

(** The successful path of remove: the registered key leaves the table and
    is freed; nothing else is logged, so no notifier runs. *)
Lemma remove_child_unregisters
    (w : World) (keep_alive notify_ obj data_ : Z) (priv : KeepAlive) :
  keep_alive ≠ NULL →
  privates w !! keep_alive = Some priv →
  idle priv →
  unique_children (children priv) →
  mkChild obj notify_ data_ ∈ deref <$> children priv →
  ∃ found tbl,
    deref found = mkChild obj notify_ data_ ∧
    found ∈ children priv ∧
    (mkChild obj notify_ data_ ∉ deref <$> tbl) ∧
    S (length tbl) = length (children priv) ∧
    gjs_keep_alive_remove_child host keep_alive notify_ obj data_ w =
      Done () (emit (EvChildFree (addr found))
                 (set_privates <[keep_alive := set_children tbl priv]> w)).
Proof.
  intros Hnn Hpriv [Ht Hf] Hset Hin.
  rewrite (remove_child_cases _ _ _ _ _ _ Hnn Hpriv), Ht, Hf.
  destruct (g_hash_table_remove _ _) as [[found tbl] |] eqn:E.
  - destruct (remove_Some_spec _ _ _ _ Hset E) as (Hd & Hfound & Hgone & Hlen).
    by exists found, tbl.
  - by apply remove_None_iff in E.
Qed.

(** X4: after a successful add the same triple is present, so adding it again
    runs into the lookup check. *)
Lemma add_child_twice
    (w : World) (keep_alive notify_ obj data_ : Z) (priv : KeepAlive) :
  keep_alive ≠ NULL →
  privates w !! keep_alive = Some priv →
  idle priv →
  mkChild obj notify_ data_ ∉ deref <$> children priv →
  ∃ w1 priv1,
    gjs_keep_alive_add_child host keep_alive notify_ obj data_ w = Done () w1 ∧
    privates w1 !! keep_alive = Some priv1 ∧
    let check := "g_hash_table_lookup(priv->children, child) == NULL" in
    let w2 := emit (EvCritical check) (after_alloc w1) in
    gjs_keep_alive_add_child host keep_alive notify_ obj data_ w1 =
      (if fatal_criticals host then Abort check w2 else Done () w2) ∧
    privates w2 !! keep_alive = Some priv1.
Proof.
  intros Hnn Hpriv Hidle Hnew.
  destruct (add_child_registers w keep_alive notify_ obj data_ priv
              Hnn Hpriv Hidle Hnew) as (Hrun & Hperm & _).
  eexists _, _. split; [exact Hrun |].
  split; [cbn [set_privates privates]; apply lookup_insert_eq |].
  cbv zeta. rewrite (add_child_cases _ _ _ _ _ _ Hnn
    (lookup_insert_eq (privates (after_alloc w)) keep_alive _)).
  destruct Hidle as [Ht Hf]. cbn [set_children inside_trace inside_finalize children].
  rewrite Ht, Hf.
  destruct (g_hash_table_lookup _ _) eqn:E.
  - split; [by unfold g_critical |].
    cbn [emit after_alloc set_privates privates]. apply lookup_insert_eq.
  - apply lookup_None_iff in E. exfalso. apply E. cbv zeta in Hperm.
    rewrite Hperm, fmap_cons. apply list_elem_of_here.
Qed.

End add_remove.

(** ** Calls made by notifiers *)

Lemma quiet_not_notification (e : event) : quiet e → notification e = None.
Proof. by destruct e. Qed.

Lemma quiet_not_releases (e : event) : quiet e → ¬ releases e.
Proof. destruct e; simpl; tauto. Qed.

Lemma omap_notification_cons (e : event) (evs : list event) :
  omap notification (e :: evs) =
  match notification e with
  | Some n => n :: omap notification evs
  | None => omap notification evs
  end.
Proof. reflexivity. Qed.

Lemma omap_quiet (evs : list event) :
  Forall quiet evs → omap notification evs = [].
Proof.
  induction 1 as [| e evs He _ IH]; [done |].
  by rewrite omap_notification_cons, (quiet_not_notification _ He).
Qed.

Section callbacks.
Context (host : Host).

Lemma frames_refl (obj : Z) (priv : KeepAlive) (w : World) :
  privates w !! obj = Some priv → frames obj priv w w.
Proof. intros H. split; [done |]. exists []. by rewrite app_nil_r. Qed.

Lemma frames_trans (obj : Z) (priv : KeepAlive) (w1 w2 w3 : World) :
  frames obj priv w1 w2 → frames obj priv w2 w3 → frames obj priv w1 w3.
Proof.
  intros [_ (evs1 & Hl1 & Hq1)] [H3 (evs2 & Hl2 & Hq2)]. split; [done |].
  exists (evs1 ++ evs2). rewrite Hl2, Hl1, app_assoc. split; [done |].
  by apply Forall_app.
Qed.

Lemma critical_frames (obj : Z) (priv : KeepAlive) (check : string) (w0 w w' : World) :
  privates w !! obj = Some priv →
  privates w0 = privates w → log w0 = log w →
  g_critical host check w0 = Done () w' →
  frames obj priv w w'.
Proof.
  intros Hobj Hp Hl. unfold g_critical.
  destruct (fatal_criticals host); [done |]. intros [= <-].
  split; [cbn [emit privates]; by rewrite Hp |].
  exists [EvCritical check]. cbn [emit log]. rewrite Hl. split; [done |].
  by repeat constructor.
Qed.

Lemma g_hash_table_replace_effect (tbl : list Key) (k : Key) (w : World) :
  ∃ tbl' w', g_hash_table_replace host tbl k w = Done tbl' w' ∧
    privates w' = privates w ∧
    ∃ evs, log w' = log w ++ evs ∧ Forall quiet evs.
Proof.
  unfold g_hash_table_replace.
  destruct (replace_existing tbl k) as [[old tbl'] |].
  - run_M. eexists _, _. split; [done |]. split; [done |].
    exists [EvChildFree (addr old)]. split; [done |]. by repeat constructor.
  - run_M. eexists _, _. split; [done |]. split; [done |].
    exists []. by rewrite app_nil_r.
Qed.

Lemma add_child_frames (obj : Z) (priv : KeepAlive)
    (keep_alive notify_ o data_ : Z) (w w' : World) :
  privates w !! obj = Some priv →
  inside_finalize priv = true →
  gjs_keep_alive_add_child host keep_alive notify_ o data_ w = Done () w' →
  frames obj priv w w'.
Proof.
  intros Hobj Hfin.
  destruct (decide (keep_alive = NULL)) as [-> | Hnn].
  { unfold gjs_keep_alive_add_child. by run_M. }
  destruct (privates w !! keep_alive) as [priv0 |] eqn:Hka.
  2: { unfold gjs_keep_alive_add_child. run_M.
       rewrite (NULL_eqb _ Hnn). cbn [negb]. by rewrite Hka. }
  rewrite (add_child_cases host _ _ _ _ _ _ Hnn Hka).
  destruct (inside_trace priv0); [by apply critical_frames |].
  destruct (inside_finalize priv0) eqn:Hf0; [by apply critical_frames |].
  destruct (g_hash_table_lookup _ _); [by apply critical_frames |].
  assert (keep_alive ≠ obj) as Hne by (intros ->; congruence).
  run_M.
  destruct (g_hash_table_replace_effect (children priv0)
              (mkKey (slice_next w) (mkChild o notify_ data_)) (after_alloc w))
    as (tbl' & w1 & -> & Hp1 & evs & Hl1 & Hq).
  unfold update_priv. run_M. intros [= <-]. split.
  - cbn [set_privates privates]. rewrite Hp1. cbn [after_alloc privates].
    rewrite Hka. by rewrite lookup_insert_ne.
  - exists evs. cbn [set_privates log]. by rewrite Hl1.
Qed.

Lemma remove_child_frames (obj : Z) (priv : KeepAlive)
    (keep_alive notify_ o data_ : Z) (w w' : World) :
  privates w !! obj = Some priv →
  inside_finalize priv = true →
  gjs_keep_alive_remove_child host keep_alive notify_ o data_ w = Done () w' →
  frames obj priv w w'.
Proof.
  intros Hobj Hfin.
  destruct (decide (keep_alive = NULL)) as [-> | Hnn].
  { unfold gjs_keep_alive_remove_child. by run_M. }
  destruct (privates w !! keep_alive) as [priv0 |] eqn:Hka.
  2: { unfold gjs_keep_alive_remove_child. run_M.
       rewrite (NULL_eqb _ Hnn). cbn [negb]. by rewrite Hka. }
  rewrite (remove_child_cases host _ _ _ _ _ _ Hnn Hka).
  destruct (inside_trace priv0); [by apply critical_frames |].
  destruct (inside_finalize priv0) eqn:Hf0; [by apply critical_frames |].
  assert (keep_alive ≠ obj) as Hne by (intros ->; congruence).
  destruct (g_hash_table_remove _ _) as [[found tbl] |]; intros [= <-].
  - split; [cbn [emit set_privates privates]; by rewrite lookup_insert_ne |].
    exists [EvChildFree (addr found)]. split; [done |]. by repeat constructor.
  - by apply frames_refl.
Qed.

Lemma run_calls_frames (obj : Z) (priv : KeepAlive) (cs : list Call) :
  inside_finalize priv = true →
  ∀ w w', privates w !! obj = Some priv →
    run_calls host cs w = Done () w' →
    frames obj priv w w'.
Proof.
  intros Hfin. induction cs as [| c cs IH]; intros w w' Hobj; simpl.
  - run_M. intros [= <-]. by apply frames_refl.
  - run_M. destruct (run_call host c w) as [[] w1 | ] eqn:Hc; [| done].
    intros Hrest.
    assert (frames obj priv w w1) as Hw1.
    { destruct c; simpl in Hc;
        [by eapply add_child_frames | by eapply remove_child_frames]. }
    eapply frames_trans; [done |]. apply IH; [apply Hw1 | done].
Qed.

End callbacks.

(** ** keep_alive_finalize *)

Lemma bind_Done {A B} (m : M A) (k : A → M B) (w w' : World) (b : B) :
  (m ≫= k) w = Done b w' →
  ∃ a w1, m w = Done a w1 ∧ k a w1 = Done b w'.
Proof.
  unfold mbind, M_bind. destruct (m w) as [a w1 |]; [| done]. eauto.
Qed.

Lemma steal_current (key : Key) (rest : list Key) :
  g_hash_table_iter_steal key (key :: rest) = rest.
Proof. simpl. by rewrite Z.eqb_refl. Qed.

Lemma update_priv_Some (obj : Z) (f : KeepAlive → KeepAlive) (priv : KeepAlive) (w : World) :
  privates w !! obj = Some priv →
  update_priv obj f w = Done () (set_privates <[obj := f priv]> w).
Proof. intros H. unfold update_priv. run_M. unfold set_privates. by rewrite H. Qed.

Lemma expected_notifications_fst (iter : list Key) :
  (expected_notifications iter).*1 =
  filter (λ c, notify c ≠ NULL) (deref <$> iter).
Proof.
  induction iter as [| key iter IH]; [done |].
  simpl. rewrite fmap_app, IH, filter_cons.
  destruct (Z.eqb_spec (notify (deref key)) NULL) as [Heq | Hne].
  - by rewrite decide_False by (intros ?; done).
  - by rewrite decide_True by done.
Qed.

Lemma expected_notifications_suffix (iter : list Key) (c : Child) (registered : list Key) :
  (c, registered) ∈ expected_notifications iter →
  ∃ before key, iter = before ++ key :: registered ∧ deref key = c.
Proof.
  induction iter as [| key iter IH]; simpl; [by intros ?%elem_of_nil |].
  rewrite elem_of_app. intros [Hhere | Hlater].
  - destruct (notify (deref key) =? NULL); [by apply elem_of_nil in Hhere |].
    apply list_elem_of_singleton in Hhere as [= -> ->]. by exists [], key.
  - destruct (IH Hlater) as (before & key' & -> & Hd).
    by exists (key :: before), key'.
Qed.

Lemma expected_notifications_gone (iter : list Key) (c : Child) (registered : list Key) :
  unique_children iter →
  (c, registered) ∈ expected_notifications iter →
  c ∉ deref <$> registered.
Proof.
  unfold unique_children. intros Hnd Hin.
  destruct (expected_notifications_suffix _ _ _ Hin) as (before & key & -> & <-).
  rewrite fmap_app, fmap_cons in Hnd.
  apply NoDup_app in Hnd as (_ & _ & Hnd). by apply NoDup_cons in Hnd as [? _].
Qed.

Section finalize.
Context (host : Host).

Lemma invoke_notify_effect (obj : Z) (priv : KeepAlive) (c : Child) (w w' : World) :
  privates w !! obj = Some priv →
  inside_finalize priv = true →
  invoke_notify host obj c w = Done () w' →
  privates w' !! obj = Some priv ∧
  ∃ evs, log w' = log w ++ evs ∧
    omap notification evs =
      (if notify c =? NULL then [] else [(c, children priv)]) ∧
    Forall (λ e, ¬ releases e) evs.
Proof.
  intros Hobj Hfin. unfold invoke_notify.
  destruct (notify c =? NULL).
  - run_M. intros [= <-]. split; [done |]. exists []. by rewrite app_nil_r.
  - intros (p & w1 & Hget & Hrun)%bind_Done.
    unfold JS_GetPrivate in Hget. injection Hget as <- <-. rewrite Hobj in Hrun.
    apply bind_Done in Hrun as ([] & w2 & Hemit & Hcalls).
    unfold modify in Hemit. injection Hemit as <-.
    destruct (run_calls_frames host obj priv _ Hfin (emit _ w) _ Hobj Hcalls)
      as [Hobj' (evs & Hlog & Hq)].
    split; [done |].
    exists (EvNotify (notify c) (child c) (data c) (children priv) :: evs).
    split; [| split].
    + rewrite Hlog. cbn [emit log]. by rewrite <- app_assoc.
    + rewrite omap_notification_cons, (omap_quiet _ Hq). by destruct c.
    + constructor; [simpl; tauto |].
      eapply Forall_impl; [done |]. apply quiet_not_releases.
Qed.

Lemma finalize_loop_effect (obj : Z) (t : bool) (iter : list Key) :
  ∀ w w',
    privates w !! obj = Some (mkKeepAlive iter true t) →
    finalize_loop host obj iter w = Done () w' →
    privates w' !! obj = Some (mkKeepAlive [] true t) ∧
    ∃ evs, log w' = log w ++ evs ∧
      omap notification evs = expected_notifications iter ∧
      (∀ k, k ∈ iter → EvChildFree (addr k) ∈ evs) ∧
      Forall (λ e, ¬ releases e) evs.
Proof.
  induction iter as [| key rest IH]; intros w w' Hobj.
  - simpl. run_M. intros [= <-]. split; [done |].
    exists []. rewrite app_nil_r. repeat split; [| done].
    by intros k ?%elem_of_nil.
  - cbn [finalize_loop].
    intros ([] & w1 & Hsteal & Hrun)%bind_Done.
    rewrite (update_priv_Some _ _ _ _ Hobj) in Hsteal. injection Hsteal as <-.
    cbn [children g_hash_table_iter_steal] in Hrun. rewrite Z.eqb_refl in Hrun.
    apply bind_Done in Hrun as ([] & w2 & Hnotify & Hrun).
    apply bind_Done in Hrun as ([] & w3 & Hfree & Hrun).
    unfold child_free, modify in Hfree. injection Hfree as <-.
    eapply (invoke_notify_effect obj (mkKeepAlive rest true t)) in Hnotify
      as [Hobj2 (evs1 & Hlog1 & Hn1 & Hr1)];
      [| cbn [set_privates privates set_children inside_finalize inside_trace];
         by rewrite lookup_insert_eq | done].
    destruct (IH (emit _ w2) _ Hobj2 Hrun)
      as [Hobj' (evs2 & Hlog2 & Hn2 & Hfree2 & Hr2)].
    split; [done |].
    exists (evs1 ++ EvChildFree (addr key) :: evs2). repeat split.
    + rewrite Hlog2. cbn [emit log]. rewrite Hlog1. cbn [set_privates log].
      by rewrite <- !app_assoc.
    + rewrite omap_app, omap_notification_cons. cbn [notification].
      by rewrite Hn1, Hn2.
    + intros k [-> | Hk]%elem_of_cons; rewrite elem_of_app, elem_of_cons; auto.
    + apply Forall_app. split; [done |]. constructor; [simpl; tauto | done].
Qed.

End finalize.

(** *** The finalizer runs to its end *)

Lemma persists_refl (w : World) : persists w w.
Proof. by intros obj. Qed.

Lemma persists_trans (w1 w2 w3 : World) :
  persists w1 w2 → persists w2 w3 → persists w1 w3.
Proof. intros H12 H23 obj H. by apply H23, H12. Qed.

Lemma persists_same (w w' : World) : privates w' = privates w → persists w w'.
Proof. intros H obj. by rewrite H. Qed.

Lemma persists_insert (w w' : World) (obj : Z) (priv : KeepAlive) :
  privates w' = <[obj := priv]> (privates w) → persists w w'.
Proof.
  intros H x Hx. rewrite H. destruct (decide (obj = x)) as [-> | Hne].
  - by rewrite lookup_insert_eq.
  - by rewrite lookup_insert_ne.
Qed.

Lemma callbacks_live_persists (host : Host) (w w' : World) :
  persists w w' → callbacks_live host w → callbacks_live host w'.
Proof.
  intros Hp Hlive fn obj user_data.
  eapply Forall_impl; [apply Hlive |]. intros c [Hnn Hsome]. split; [done |].
  by apply Hp.
Qed.

Section completion.
Context (host : Host).
Hypothesis criticals_return : fatal_criticals host = false.

Lemma critical_returns (check : string) (w : World) :
  g_critical host check w = Done () (emit (EvCritical check) w).
Proof. unfold g_critical. by rewrite criticals_return. Qed.

Lemma add_child_returns (keep_alive notify_ obj data_ : Z) (w : World) :
  keep_alive ≠ NULL →
  is_Some (privates w !! keep_alive) →
  ∃ w', gjs_keep_alive_add_child host keep_alive notify_ obj data_ w = Done () w' ∧
        persists w w'.
Proof.
  intros Hnn [priv Hpriv]. rewrite (add_child_cases host _ _ _ _ _ _ Hnn Hpriv).
  destruct (inside_trace priv);
    [rewrite critical_returns; eexists; split; [done | by apply persists_same] |].
  destruct (inside_finalize priv);
    [rewrite critical_returns; eexists; split; [done | by apply persists_same] |].
  destruct (g_hash_table_lookup _ _);
    [rewrite critical_returns; eexists; split; [done | by apply persists_same] |].
  unfold mbind, M_bind.
  destruct (g_hash_table_replace_effect host (children priv)
              (mkKey (slice_next w) (mkChild obj notify_ data_)) (after_alloc w))
    as (tbl' & w1 & -> & Hp1 & _).
  assert (privates w1 !! keep_alive = Some priv) as Hpriv1 by by rewrite Hp1.
  rewrite (update_priv_Some _ _ _ _ Hpriv1). eexists. split; [done |].
  eapply persists_trans; [apply (persists_same w w1); by rewrite Hp1 |].
  by eapply persists_insert.
Qed.

Lemma remove_child_returns (keep_alive notify_ obj data_ : Z) (w : World) :
  keep_alive ≠ NULL →
  is_Some (privates w !! keep_alive) →
  ∃ w', gjs_keep_alive_remove_child host keep_alive notify_ obj data_ w = Done () w' ∧
        persists w w'.
Proof.
  intros Hnn [priv Hpriv]. rewrite (remove_child_cases host _ _ _ _ _ _ Hnn Hpriv).
  destruct (inside_trace priv);
    [rewrite critical_returns; eexists; split; [done | by apply persists_same] |].
  destruct (inside_finalize priv);
    [rewrite critical_returns; eexists; split; [done | by apply persists_same] |].
  destruct (g_hash_table_remove _ _) as [[found tbl] |].
  - eexists. split; [done |]. by eapply persists_insert.
  - eexists. split; [done |]. apply persists_refl.
Qed.

Lemma run_calls_return (cs : list Call) :
  ∀ w, Forall (λ c, call_target c ≠ NULL ∧ is_Some (privates w !! call_target c)) cs →
    ∃ w', run_calls host cs w = Done () w' ∧ persists w w'.
Proof.
  induction cs as [| c cs IH]; intros w Hlive.
  - exists w. split; [done | apply persists_refl].
  - apply Forall_cons in Hlive as [[Hnn Hsome] Hlive].
    assert (∃ w1, run_call host c w = Done () w1 ∧ persists w w1) as (w1 & Hc & Hp1).
    { destruct c; [by apply add_child_returns | by apply remove_child_returns]. }
    destruct (IH w1) as (w2 & Hcs & Hp2).
    { eapply Forall_impl; [exact Hlive |]. intros c' [? ?]. split; [done |].
      by apply Hp1. }
    exists w2. split; [| by eapply persists_trans].
    cbn [run_calls]. unfold mbind, M_bind. by rewrite Hc.
Qed.

Lemma update_priv_returns (obj : Z) (f : KeepAlive → KeepAlive) (w : World) :
  ∃ w', update_priv obj f w = Done () w' ∧ persists w w' ∧ log w' = log w.
Proof.
  destruct (privates w !! obj) as [priv |] eqn:Hobj.
  - rewrite (update_priv_Some _ _ _ _ Hobj). eexists. split; [done |].
    split; [by eapply persists_insert | done].
  - unfold update_priv. run_M. unfold set_privates. rewrite Hobj.
    eexists. split; [done |]. split; [| done]. apply persists_same.
    by destruct w.
Qed.

Lemma finalize_loop_returns (obj : Z) (iter : list Key) :
  ∀ w, callbacks_live host w →
    ∃ w', finalize_loop host obj iter w = Done () w' ∧ persists w w'.
Proof.
  induction iter as [| key rest IH]; intros w Hlive.
  - exists w. split; [done | apply persists_refl].
  - cbn [finalize_loop]. unfold mbind, M_bind.
    destruct (update_priv_returns obj
                (λ priv, set_children (g_hash_table_iter_steal key (children priv)) priv) w)
      as (w1 & -> & Hp1 & _).
    assert (∃ w2, invoke_notify host obj (deref key) w1 = Done () w2 ∧ persists w1 w2)
      as (w2 & -> & Hp2).
    { unfold invoke_notify. destruct (notify (deref key) =? NULL).
      - exists w1. split; [done | apply persists_refl].
      - run_M.
        destruct (run_calls_return
                    (callbacks host (notify (deref key)) (child (deref key))
                               (data (deref key)))
                    (emit (EvNotify (notify (deref key)) (child (deref key))
                                    (data (deref key))
                                    (from_option children [] (privates w1 !! obj))) w1))
          as (w2 & Hcalls & Hp2).
        { apply (callbacks_live_persists host w); [| done].
          eapply persists_trans; [exact Hp1 | by apply persists_same]. }
        exists w2. split; [done |].
        eapply persists_trans; [| exact Hp2]. by apply persists_same. }
    unfold child_free, modify.
    destruct (IH (emit (EvChildFree (addr key)) w2)) as (w3 & Hloop & Hp3).
    { apply (callbacks_live_persists host w); [| done].
      eapply persists_trans; [exact Hp1 |].
      eapply persists_trans; [exact Hp2 | by apply persists_same]. }
    exists w3. split; [done |].
    eapply persists_trans; [exact Hp1 |].
    eapply persists_trans; [exact Hp2 |].
    eapply persists_trans; [| exact Hp3]. by apply persists_same.
Qed.

Lemma free_all_returns (ps : list Z) :
  ∀ w, ∃ w', free_all ps w = Done () w'.
Proof.
  induction ps as [| p ps IH]; intros w; [by exists w |].
  cbn [free_all]. unfold mbind, M_bind, child_free, modify. apply IH.
Qed.

(** When criticals are not fatal and the notifiers only call registries
    that exist, the finalizer completes. *)
Lemma finalize_completes (obj : Z) (w : World) :
  callbacks_live host w →
  ∃ w', keep_alive_finalize host obj w = Done () w'.
Proof.
  intros Hlive. unfold keep_alive_finalize. unfold mbind at 1, M_bind, JS_GetPrivate.
  destruct (privates w !! obj) as [priv |] eqn:Hobj; [| by exists w].
  unfold mbind, M_bind.
  rewrite (update_priv_Some _ _ _ _ Hobj).
  destruct (finalize_loop_returns obj (children priv)
              (set_privates <[obj := set_inside_finalize true priv]> w))
    as (w1 & -> & _).
  { apply (callbacks_live_persists host w); [| done]. by eapply persists_insert. }
  unfold g_hash_table_destroy, mbind, M_bind, JS_GetPrivate, modify.
  destruct (free_all_returns (addr <$> from_option children [] (privates w1 !! obj))
              (emit (EvTableDestroy (from_option children [] (privates w1 !! obj))) w1))
    as (w2 & ->).
  unfold free_priv, mbind, M_bind, modify. eauto.
Qed.

End completion.

Section finalize_drains.
Context (host : Host).

(** C1: the finalizer of a registry takes every entry out of the set
    before it calls the entry's notifier with (handle, data), calls the
    notifier of every entry that has one exactly once and none for the
    others, releases every entry, and finds the set empty when it destroys
    the table and frees the registry, which happen last.  It gets that far
    whenever criticals are not fatal and the notifiers call live registries
    only. *)
Theorem finalize_notifies_each_entry_once
    (w : World) (obj : Z) (priv : KeepAlive) :
  privates w !! obj = Some priv →
  unique_children (children priv) →
  (fatal_criticals host = false → callbacks_live host w →
   ∃ w', keep_alive_finalize host obj w = Done () w') ∧
  ∀ w', keep_alive_finalize host obj w = Done () w' →
    ∃ evs : list event,
      log w' = log w ++ evs ++ [EvTableDestroy []; EvPrivFree] ∧
      (omap notification evs).*1 =
        filter (λ c, notify c ≠ NULL) (deref <$> children priv) ∧
      (∀ c registered,
         (c, registered) ∈ omap notification evs → c ∉ deref <$> registered) ∧
      (∀ k, k ∈ children priv → EvChildFree (addr k) ∈ evs) ∧
      Forall (λ e, ¬ releases e) evs ∧
      privates w' !! obj = None.
Proof.
  intros Hobj Hset. split; [intros Hnf Hlive; by apply finalize_completes |].
  intros w'. unfold keep_alive_finalize.
  intros (p & w0 & Hget & Hrun)%bind_Done.
  unfold JS_GetPrivate in Hget. injection Hget as <- <-. rewrite Hobj in Hrun.
  apply bind_Done in Hrun as ([] & w1 & Hflag & Hrun).
  rewrite (update_priv_Some _ _ _ _ Hobj) in Hflag. injection Hflag as <-.
  apply bind_Done in Hrun as ([] & w2 & Hloop & Hrun).
  apply (finalize_loop_effect host obj (inside_trace priv)) in Hloop
    as [Hobj2 (evs & Hlog & Hn & Hfree & Hrel)];
    [| cbn [set_privates privates]; by rewrite lookup_insert_eq].
  apply bind_Done in Hrun as ([] & w3 & Hdestroy & Hpriv).
  unfold g_hash_table_destroy in Hdestroy.
  apply bind_Done in Hdestroy as (p & w2' & Hget & Hdestroy).
  unfold JS_GetPrivate in Hget. injection Hget as <- <-.
  rewrite Hobj2 in Hdestroy. cbn in Hdestroy. injection Hdestroy as <-.
  unfold free_priv in Hpriv. cbn in Hpriv. injection Hpriv as <-.
  exists evs. repeat split.
  - cbn [emit set_privates log]. rewrite Hlog. cbn [set_privates log].
    by rewrite <- !app_assoc.
  - rewrite Hn. apply expected_notifications_fst.
  - intros c registered Hin. rewrite Hn in Hin.
    by eapply expected_notifications_gone.
  - done.
  - done.
  - cbn [emit set_privates privates]. apply lookup_delete_eq.
Qed.

End finalize_drains.

(** ** Iteration *)

Lemma iterator_round (notify_func : Z) (fuel : nat) (iter : list Key) :
  (∀ iter', (length iter' < length iter)%nat →
     iterator_drain fuel iter' notify_func =
     handle_and_data <$> filter (λ k, notify (deref k) = notify_func) iter') →
  match gjs_keep_alive_iterator_next iter notify_func with
  | (Some out, iter') => out :: iterator_drain fuel iter' notify_func
  | (None, _) => []
  end = handle_and_data <$> filter (λ k, notify (deref k) = notify_func) iter.
Proof.
  induction iter as [| k iter IH]; intros Hdrain; [done |].
  cbn [gjs_keep_alive_iterator_next]. rewrite filter_cons.
  destruct (Z.eqb_spec (notify (deref k)) notify_func) as [Heq | Hne]; cbn [negb].
  - rewrite decide_True by done. rewrite fmap_cons. f_equal.
    apply Hdrain. simpl. lia.
  - rewrite decide_False by done. apply IH.
    intros iter' Hlen. apply Hdrain. simpl. lia.
Qed.

Lemma iterator_drain_enough (notify_func : Z) (fuel : nat) :
  ∀ iter, (length iter < fuel)%nat →
    iterator_drain fuel iter notify_func =
    handle_and_data <$> filter (λ k, notify (deref k) = notify_func) iter.
Proof.
  induction fuel as [| fuel IH]; intros iter Hlen; [lia |].
  cbn [iterator_drain]. rewrite <- (iterator_round notify_func fuel iter).
  - by destruct (gjs_keep_alive_iterator_next iter notify_func) as [[out |] iter'].
  - intros iter' Hlen'. apply IH. lia.
Qed.

(** C8: walking a registry with a notifier as filter hands out the
    (handle, data) pairs of the entries registered under that notifier, one
    per entry, and nothing else; the registry is not changed by the walk. *)
Theorem iterate_yields_entries_of_notifier
    (w : World) (keep_alive notify_func : Z) (priv : KeepAlive) :
  privates w !! keep_alive = Some priv →
  keep_alive_iterate keep_alive notify_func w =
    Done (handle_and_data <$>
            filter (λ k, notify (deref k) = notify_func) (children priv)) w.
Proof.
  intros Hpriv. unfold keep_alive_iterate, gjs_keep_alive_iterator_init.
  run_M. rewrite Hpriv. cbv beta iota.
  by rewrite iterator_drain_enough by lia.
Qed.

(** ** keep_alive_trace *)

Lemma relocate_unmoved (tracer : Z → Z) (k : Key) :
  ¬ moved tracer k → relocate tracer k = k.
Proof.
  unfold moved, relocate, JS_CallHeapObjectTracer. intros H.
  apply dec_stable in H. rewrite H. by destruct k as [a []].
Qed.

Lemma trace_scan_cons (tracer : Z → Z) (k : Key) (iter staged : list Key) :
  trace_scan tracer (k :: iter) staged =
  if negb (tracer (child (deref k)) =? child (deref k))
  then trace_scan tracer iter (relocate tracer k :: staged)
  else let '(kept, l) := trace_scan tracer iter staged in
       (relocate tracer k :: kept, l).
Proof. reflexivity. Qed.

Lemma trace_scan_spec (tracer : Z → Z) (iter : list Key) :
  ∀ staged,
    trace_scan tracer iter staged =
    (filter (λ k, ¬ moved tracer k) iter,
     reverse (relocate tracer <$> filter (moved tracer) iter) ++ staged).
Proof.
  induction iter as [| k iter IH]; intros staged; [done |].
  rewrite trace_scan_cons, !filter_cons, !IH.
  destruct (Z.eqb_spec (tracer (child (deref k))) (child (deref k))) as [Heq | Hne];
    cbn [negb].
  - assert (¬ moved tracer k) as Hk by (intros Hm; by apply Hm).
    rewrite (decide_True (P := ¬ moved tracer k)) by done.
    rewrite (decide_False (P := moved tracer k)) by done.
    by rewrite (relocate_unmoved tracer k Hk).
  - assert (moved tracer k) as Hk by done.
    rewrite (decide_False (P := ¬ moved tracer k)) by (intros Hn; by apply Hn).
    rewrite (decide_True (P := moved tracer k)) by done.
    by rewrite fmap_cons, reverse_cons, <- app_assoc.
Qed.

Lemma filter_all {A} (P : A → Prop) `{∀ x, Decision (P x)} (l : list A) :
  Forall P l → filter P l = l.
Proof.
  induction 1 as [| x l Hx _ IH]; [done |].
  by rewrite filter_cons, decide_True, IH.
Qed.

Lemma filter_none {A} (P : A → Prop) `{∀ x, Decision (P x)} (l : list A) :
  Forall (λ x, ¬ P x) l → filter P l = [].
Proof.
  induction 1 as [| x l Hx _ IH]; [done |].
  by rewrite filter_cons, decide_False, IH.
Qed.

Section trace.
Context (host : Host).

(** C6: a trace pass in which the collector moves none of the children
    leaves the registry exactly as it found it, [inside_trace] cleared; the
    pass runs to its end on every registry that is not already inside
    trace. *)
Theorem trace_without_moves_preserves_entries
    (tracer : Z → Z) (w : World) (obj : Z) (priv : KeepAlive) :
  privates w !! obj = Some priv →
  (∀ k, k ∈ children priv → tracer (child (deref k)) = child (deref k)) →
  (inside_trace priv = false → keep_alive_trace host tracer obj w = Done () w) ∧
  (∀ w', keep_alive_trace host tracer obj w = Done () w' →
     ∃ priv', privates w' !! obj = Some priv' ∧
       children priv' = children priv ∧
       inside_trace priv' = false).
Proof.
  intros Hobj Hfixed.
  assert (keep_alive_trace host tracer obj w =
          if inside_trace priv then Abort "!priv->inside_trace" w else Done () w)
    as Hrun.
  { unfold keep_alive_trace. run_M. rewrite Hobj. cbv beta iota.
    destruct (inside_trace priv) eqn:Ht; cbn [negb]; [done |].
    rewrite (update_priv_Some _ _ _ _ Hobj).
    rewrite trace_scan_spec.
    assert (Forall (λ k, ¬ moved tracer k) (children priv)) as Hnone.
    { apply Forall_forall. intros k Hk. specialize (Hfixed k Hk).
      unfold moved. tauto. }
    rewrite (filter_all _ _ Hnone), (filter_none _ _ Hnone).
    cbn [fmap list_fmap reverse rev_append app reinsert_all]. run_M.
    rewrite (update_priv_Some _ _ (set_inside_trace true priv))
      by (cbn [set_privates privates]; apply lookup_insert_eq).
    rewrite (update_priv_Some _ _
               (set_children (children priv) (set_inside_trace true priv)))
      by (cbn [set_privates privates]; apply lookup_insert_eq).
    f_equal. destruct w as [m slot cls nxt lg]. unfold set_privates. cbn.
    f_equal. cbn in Hobj. rewrite !insert_insert_eq.
    apply insert_id. rewrite Hobj. destruct priv as [tbl f t]. cbn in *. by subst. }
  split.
  - intros Ht. by rewrite Hrun, Ht.
  - intros w'. rewrite Hrun. destruct (inside_trace priv) eqn:Ht; [done |].
    intros [= <-]. by exists priv.
Qed.

End trace.

(** *** Reinsertion *)

Section reinsert.
Context (host : Host).

Lemma g_hash_table_replace_spec (tbl : list Key) (k : Key) (w : World) :
  ∃ tbl' w', g_hash_table_replace host tbl k w = Done tbl' w' ∧
    privates w' = privates w ∧ files [k] tbl tbl'.
Proof.
  unfold g_hash_table_replace, files, unique_children.
  destruct (replace_existing tbl k) as [[old tbl'] |] eqn:E.
  - apply replace_existing_Some in E as (Heq & Hin & Hsub).
    run_M. eexists _, _. split; [done |]. split; [done |].
    rewrite Heq. split; [| split; [| done]].
    + intros c. rewrite list_fmap_singleton.
      rewrite list_elem_of_singleton. split; [auto | by intros [-> |]].
    + intros x Hx. rewrite list_elem_of_singleton. by apply Hsub.
  - apply replace_existing_None in E.
    run_M. eexists _, _. split; [done |]. split; [done |].
    split; [| split].
    + intros c. rewrite insert_at_perm, list_fmap_singleton, fmap_cons.
      by rewrite list_elem_of_singleton, elem_of_cons.
    + intros x. rewrite insert_at_perm, list_elem_of_singleton.
      by rewrite elem_of_cons.
    + intros Hnd. rewrite insert_at_perm, fmap_cons. by apply NoDup_cons.
Qed.

Lemma reinsert_all_spec (l : list Key) :
  ∀ tbl w, ∃ tbl' w', reinsert_all host l tbl w = Done tbl' w' ∧
    privates w' = privates w ∧ files l tbl tbl'.
Proof.
  induction l as [| k l IH]; intros tbl w.
  - exists tbl, w. split; [done |]. split; [done |].
    split; [| split; [by right | done]].
    intros c. rewrite fmap_nil, elem_of_nil. tauto.
  - cbn [reinsert_all]. unfold mbind, M_bind, reinsert.
    destruct (g_hash_table_replace_spec tbl k w)
      as (tbl1 & w1 & -> & Hp1 & Hin1 & Hsub1 & Hnd1).
    destruct (IH tbl1 w1) as (tbl2 & w2 & -> & Hp2 & Hin2 & Hsub2 & Hnd2).
    exists tbl2, w2. split; [done |]. split; [congruence |].
    split; [| split; [| tauto]].
    + intros c. rewrite Hin2, Hin1, list_fmap_singleton, fmap_cons.
      rewrite list_elem_of_singleton, elem_of_cons. tauto.
    + intros x Hx. rewrite elem_of_cons.
      destruct (Hsub2 x Hx) as [? | Hx1]; [tauto |].
      destruct (Hsub1 x Hx1) as [->%list_elem_of_singleton | ?]; tauto.
Qed.

End reinsert.

Lemma relocated_identities (tracer : Z → Z) (tbl : list Key) (c : Child) :
  c ∈ deref <$> reverse (relocate tracer <$> filter (moved tracer) tbl) ∨
  c ∈ deref <$> filter (λ k, ¬ moved tracer k) tbl ↔
  ∃ x, x ∈ tbl ∧ c = JS_CallHeapObjectTracer tracer (deref x).
Proof.
  split.
  - intros [Hin | Hin].
    + apply list_elem_of_fmap in Hin as (y & -> & Hy).
      apply elem_of_reverse, list_elem_of_fmap in Hy as (x & -> & Hx).
      apply list_elem_of_filter in Hx as [_ Hx]. by exists x.
    + apply list_elem_of_fmap in Hin as (x & -> & Hx).
      apply list_elem_of_filter in Hx as [Hfix Hx]. exists x. split; [done |].
      by rewrite <- (relocate_unmoved tracer x Hfix) at 1.
  - intros (x & Hx & ->). destruct (decide (moved tracer x)) as [Hm | Hfix].
    + left. apply (list_elem_of_fmap_2' deref _ (relocate tracer x)); [| done].
      apply elem_of_reverse, list_elem_of_fmap_2. by apply list_elem_of_filter.
    + right. apply (list_elem_of_fmap_2' deref _ x).
      * by apply list_elem_of_filter.
      * by rewrite <- (relocate_unmoved tracer x Hfix) at 2.
Qed.

Section relocation.
Context (host : Host).

(** A trace pass on an idle registry: it completes, the registry is idle
    again, its children are still a set, and their identities are those of
    the old children as the collector forwarded them. *)
Lemma keep_alive_trace_effect (tracer : Z → Z) (w : World) (obj : Z) (priv : KeepAlive) :
  privates w !! obj = Some priv →
  inside_trace priv = false →
  unique_children (children priv) →
  ∃ w1 tbl1,
    keep_alive_trace host tracer obj w = Done () w1 ∧
    privates w1 !! obj = Some (mkKeepAlive tbl1 (inside_finalize priv) false) ∧
    unique_children tbl1 ∧
    (∀ c, c ∈ deref <$> tbl1 ↔
          ∃ x, x ∈ children priv ∧ c = JS_CallHeapObjectTracer tracer (deref x)) ∧
    (∀ x, x ∈ tbl1 → ∃ y, y ∈ children priv ∧ x = relocate tracer y).
Proof.
  intros Hobj Ht Hset. unfold keep_alive_trace. run_M.
  rewrite Hobj. cbv beta iota. rewrite Ht. cbn [negb].
  rewrite (update_priv_Some _ _ _ _ Hobj), trace_scan_spec, app_nil_r.
  set (staged := reverse (relocate tracer <$> filter (moved tracer) (children priv))).
  set (kept := filter (λ k, ¬ moved tracer k) (children priv)).
  set (w0 := set_privates _ w).
  destruct (reinsert_all_spec host staged kept w0)
    as (tbl1 & w1 & -> & Hp1 & Hin & Hsub & Hnd).
  assert (privates w1 !! obj = Some (set_inside_trace true priv)) as Hobj1.
  { rewrite Hp1. subst w0. cbn [set_privates privates]. apply lookup_insert_eq. }
  rewrite (update_priv_Some _ _ _ _ Hobj1).
  rewrite (update_priv_Some _ _ (set_children tbl1 (set_inside_trace true priv)))
    by (cbn [set_privates privates]; apply lookup_insert_eq).
  eexists _, tbl1. split; [done |]. split; [| split; [| split]].
  - cbn [set_privates privates]. by rewrite lookup_insert_eq.
  - apply Hnd. unfold unique_children, kept.
    eapply sublist_NoDup; [exact Hset |]. apply fmap_sublist, sublist_filter.
  - intros c. rewrite Hin. apply relocated_identities.
  - intros x Hx. destruct (Hsub x Hx) as [Hst | Hkept].
    + apply elem_of_reverse, list_elem_of_fmap in Hst as (y & -> & Hy).
      apply list_elem_of_filter in Hy as [_ Hy]. by exists y.
    + apply list_elem_of_filter in Hkept as [Hfix Hkept]. exists x.
      split; [done |]. by rewrite (relocate_unmoved tracer x Hfix).
Qed.

(** C5 (as the code has it): an entry whose handle the collector moves is
    taken out of the table during the scan, staged, and filed again under
    its new identity once the scan is over.  After the pass a remove with
    the new handle finds the entry registered under that identity and takes
    it out; this is the relocated entry itself unless the collector
    forwarded another entry to the same identity.  A remove with the old
    handle changes nothing, unless the collector forwarded an entry to that
    very identity. *)
Theorem relocated_entry_follows_its_handle
    (tracer : Z → Z) (w : World) (obj : Z) (priv : KeepAlive) (k : Key) :
  obj ≠ NULL →
  privates w !! obj = Some priv →
  idle priv →
  unique_children (children priv) →
  k ∈ children priv →
  tracer (child (deref k)) ≠ child (deref k) →
  (∃ kept staged,
     trace_scan tracer (children priv) [] = (kept, staged) ∧
     (deref k ∉ deref <$> kept) ∧ relocate tracer k ∈ staged) ∧
  ∃ w1 priv1,
    keep_alive_trace host tracer obj w = Done () w1 ∧
    privates w1 !! obj = Some priv1 ∧
    idle priv1 ∧
    (∃ found tbl,
       deref found = JS_CallHeapObjectTracer tracer (deref k) ∧
       found ∈ children priv1 ∧
       (JS_CallHeapObjectTracer tracer (deref k) ∉ deref <$> tbl) ∧
       S (length tbl) = length (children priv1) ∧
       gjs_keep_alive_remove_child host obj
           (notify (deref k)) (tracer (child (deref k))) (data (deref k)) w1 =
         Done () (emit (EvChildFree (addr found))
                    (set_privates <[obj := set_children tbl priv1]> w1)) ∧
       ((∀ x, x ∈ children priv →
           JS_CallHeapObjectTracer tracer (deref x) =
           JS_CallHeapObjectTracer tracer (deref k) → x = k) →
        found = relocate tracer k)) ∧
    ((∀ x, x ∈ children priv →
        JS_CallHeapObjectTracer tracer (deref x) ≠ deref k) →
     gjs_keep_alive_remove_child host obj
         (notify (deref k)) (child (deref k)) (data (deref k)) w1 = Done () w1).
Proof.
  intros Hnn Hobj [Ht Hf] Hset Hk Hmoved. split.
  - eexists _, _. split; [apply trace_scan_spec |]. split.
    + intros (x & Hd & Hx)%list_elem_of_fmap.
      apply list_elem_of_filter in Hx as [Hfix Hx].
      assert (x = k) as ->; [| by apply Hfix].
      by apply (unique_children_inj (children priv)).
    + rewrite app_nil_r. apply elem_of_reverse, list_elem_of_fmap_2.
      by apply list_elem_of_filter.
  - destruct (keep_alive_trace_effect tracer w obj priv Hobj Ht Hset)
      as (w1 & tbl1 & Hrun & Hobj1 & Hset1 & Hin1 & Hkeys1).
    exists w1, (mkKeepAlive tbl1 (inside_finalize priv) false).
    split; [done |]. split; [done |]. split; [by split |]. split.
    + destruct (remove_child_unregisters host w1 obj
                  (notify (deref k)) (tracer (child (deref k))) (data (deref k))
                  _ Hnn Hobj1) as (found & tbl & Hd & Hfound & Hgone & Hlen & Hrm);
        [by split | done | apply Hin1; by exists k |].
      exists found, tbl. repeat (split; [done |]).
      intros Hinj. destruct (Hkeys1 found Hfound) as (y & Hy & ->).
      by rewrite (Hinj y Hy).
    + intros Hfree.
      apply (remove_child_miss host w1 obj _ _ _ _ Hnn Hobj1); [by split |].
      apply remove_None_iff. cbn [children]. rewrite Hin1. intros (x & Hx & Heq).
      apply (Hfree x Hx). rewrite <- Heq. by destruct (deref k).
Qed.

End relocation.

(** ** The per-context singleton *)

Section singleton.
Context (host : Host).

Lemma keep_alive_create_ok (js : JSEngine) (w : World) :
  has_property_ok js = true →
  class_defined w = true ∨ init_class js ≠ NULL →
  new_object js ≠ NULL →
  privates w !! new_object js = None →
  gjs_keep_alive_create js w =
    Done (new_object js) (with_new_registry (new_object js) w).
Proof.
  intros Hprop Hclass Hobj Hfresh.
  unfold gjs_keep_alive_create, gjs_keep_alive_new. rewrite Hprop. cbn [negb].
  run_M. rewrite (NULL_eqb _ Hobj).
  destruct (class_defined w) eqn:Hc; cbv beta iota.
  - rewrite Hfresh, bool_decide_eq_true_2 by done. cbv beta iota.
    rewrite (NULL_eqb _ Hobj). unfold with_new_registry, set_privates.
    cbn. by rewrite Hc.
  - destruct Hclass as [? | Hinit]; [done |]. rewrite (NULL_eqb _ Hinit).
    cbn [set_class_defined privates]. rewrite Hfresh, bool_decide_eq_true_2 by done.
    cbv beta iota. by rewrite (NULL_eqb _ Hobj).
Qed.

(** [gjs_keep_alive_get_global] never hands NULL to its caller. *)
Lemma get_global_not_NULL (js : JSEngine) (w w' : World) (keep_alive : Z) :
  gjs_keep_alive_get_global js w = Done keep_alive w' → keep_alive ≠ NULL.
Proof.
  unfold gjs_keep_alive_get_global, gjs_keep_alive_get_global_if_exists.
  unfold mbind, M_bind.
  set (slot := match global_slot w with Some o => o | None => NULL end).
  destruct (Z.eqb_spec slot NULL) as [Heq | Hne]; cbn [negb].
  - unfold gjs_keep_alive_create, mbind, M_bind.
    destruct (gjs_keep_alive_new js w) as [o w1 | ]; [| done].
    destruct (Z.eqb_spec o NULL) as [? | Hne]; [done |].
    unfold modify, mret, M_ret. by intros [= <- _].
  - unfold mret, M_ret. by intros [= <- _].
Qed.

(** C4, what the code does: on a context whose slot holds no registry,
    [gjs_keep_alive_remove_global_child] has the engine create one, records
    it in the slot, finds nothing to remove in it and returns normally. *)
Theorem remove_global_child_creates_registry
    (js : JSEngine) (w : World) (notify_ child_ data_ : Z) :
  global_slot w = None →
  has_property_ok js = true →
  class_defined w = true ∨ init_class js ≠ NULL →
  new_object js ≠ NULL →
  privates w !! new_object js = None →
  gjs_keep_alive_remove_global_child host js notify_ child_ data_ w =
    Done () (with_new_registry (new_object js) w).
Proof.
  intros Hslot Hprop Hclass Hobj Hfresh.
  unfold gjs_keep_alive_remove_global_child, gjs_keep_alive_get_global,
    gjs_keep_alive_get_global_if_exists.
  unfold mbind, M_bind. rewrite Hslot. cbn [Z.eqb NULL negb].
  rewrite (keep_alive_create_ok js w Hprop Hclass Hobj Hfresh).
  rewrite (NULL_eqb _ Hobj). unfold mret, M_ret.
  apply (remove_child_miss host _ _ _ _ _ (mkKeepAlive [] false false)).
  - done.
  - unfold with_new_registry. cbn [privates]. apply lookup_insert_eq.
  - by split.
  - reflexivity.
Qed.

End singleton.

(** ** Worked instances *)

(** C1 at the sample registry, with notifiers that call back into it. *)
Lemma finalize_notifies_each_entry_once_witness :
  (fatal_criticals reentrant_host = false →
   callbacks_live reentrant_host sample_world →
   ∃ w', keep_alive_finalize reentrant_host 100 sample_world = Done () w') ∧
  ∀ w', keep_alive_finalize reentrant_host 100 sample_world = Done () w' →
    ∃ evs : list event,
      log w' = log sample_world ++ evs ++ [EvTableDestroy []; EvPrivFree] ∧
      (omap notification evs).*1 =
        filter (λ c, notify c ≠ NULL) (deref <$> children sample_registry) ∧
      (∀ c registered,
         (c, registered) ∈ omap notification evs → c ∉ deref <$> registered) ∧
      (∀ k, k ∈ children sample_registry → EvChildFree (addr k) ∈ evs) ∧
      Forall (λ e, ¬ releases e) evs ∧
      privates w' !! 100 = None.
Proof.
  apply (finalize_notifies_each_entry_once reentrant_host sample_world 100
           sample_registry).
  - reflexivity.
  - unfold unique_children. apply (bool_decide_unpack _). vm_compute. exact I.
Defined.

(** The notifiers of [reentrant_host] only call registry 100, which is
    live in the sample world. *)
Example reentrant_host_is_live : callbacks_live reentrant_host sample_world.
Proof.
  intros fn obj user_data. cbn [reentrant_host callbacks].
  repeat constructor; try discriminate; by eexists.
Qed.

(** The scenario of the specification: three adds, then finalize. *)
Example finalize_scenario :
  (gjs_keep_alive_add_child default_host 100 7 1 11;;
   gjs_keep_alive_add_child default_host 100 7 2 12;;
   gjs_keep_alive_add_child default_host 100 8 3 13;;
   keep_alive_finalize default_host 100)
    (mkWorld {[ 100 := mkKeepAlive [] false false ]} None false 1000 []) =
  Done () (mkWorld ∅ None false 1003
             [ EvNotify 8 3 13 [mkKey 1001 (mkChild 2 7 12); mkKey 1000 (mkChild 1 7 11)];
               EvChildFree 1002;
               EvNotify 7 2 12 [mkKey 1000 (mkChild 1 7 11)];
               EvChildFree 1001;
               EvNotify 7 1 11 [];
               EvChildFree 1000;
               EvTableDestroy [];
               EvPrivFree ]).
Proof. vm_compute. reflexivity. Qed.

(** An entry without notifier is released without a call. *)
Example finalize_without_notifier :
  log (outcome_world (keep_alive_finalize default_host 100 silent_world)) =
  [ EvChildFree 1001; EvNotify 7 1 11 []; EvChildFree 1000;
    EvTableDestroy []; EvPrivFree ].
Proof. vm_compute. reflexivity. Qed.

(** Calls a notifier makes on the registry being finalized are refused. *)
Example finalize_with_reentrant_notifiers :
  log (outcome_world (keep_alive_finalize reentrant_host 100 silent_world)) =
  [ EvChildFree 1001;
    EvNotify 7 1 11 [];
    EvCritical "!priv->inside_finalize";
    EvCritical "!priv->inside_finalize";
    EvChildFree 1000;
    EvTableDestroy []; EvPrivFree ].
Proof. vm_compute. reflexivity. Qed.

(** C2, as stated, fails under GLib's defaults: the second add of a
    registered triple is not fatal, it returns to its caller. *)
Lemma duplicate_add_is_not_fatal :
  mkKey 1000 (mkChild 1 7 11) ∈ children sample_registry ∧
  gjs_keep_alive_add_child default_host 100 7 1 11 sample_world =
    Done () (mkWorld {[ 100 := sample_registry ]} None false 1004
               [EvCritical "g_hash_table_lookup(priv->children, child) == NULL"]) ∧
  ¬ ∃ msg w', gjs_keep_alive_add_child default_host 100 7 1 11 sample_world =
              Abort msg w'.
Proof.
  split; [| split].
  - unfold sample_registry, sample_children. cbn [children].
    do 2 apply list_elem_of_further. apply list_elem_of_here.
  - vm_compute. reflexivity.
  - intros (msg & w' & H). vm_compute in H. discriminate H.
Qed.

(** C2 as amended, at the sample registry under fatal criticals. *)
Lemma duplicate_add_reported_witness :
  ∃ (check : string) (w0 : World),
    let w' := emit (EvCritical check) w0 in
    gjs_keep_alive_add_child strict_host 100 7 1 11 sample_world =
      (if fatal_criticals strict_host then Abort check w' else Done () w') ∧
    privates w' = privates sample_world ∧
    privates w' !! 100 = Some sample_registry ∧
    (idle sample_registry →
     check = "g_hash_table_lookup(priv->children, child) == NULL" ∧
     w0 = after_alloc sample_world).
Proof.
  apply (duplicate_add_reported strict_host sample_world 100 7 1 11
           sample_registry (mkKey 1000 (mkChild 1 7 11))).
  - discriminate.
  - reflexivity.
  - do 2 apply list_elem_of_further. apply list_elem_of_here.
  - reflexivity.
Defined.

(** C3, as stated, fails under GLib's defaults: add and remove called
    while the finalizer runs return to their caller. *)
Lemma reentrant_call_is_not_fatal :
  privates finalizing_world !! 100 = Some (mkKeepAlive sample_children true false) ∧
  gjs_keep_alive_add_child default_host 100 7 4 14 finalizing_world =
    Done () (emit (EvCritical "!priv->inside_finalize") finalizing_world) ∧
  gjs_keep_alive_remove_child default_host 100 7 1 11 finalizing_world =
    Done () (emit (EvCritical "!priv->inside_finalize") finalizing_world) ∧
  ¬ (∃ msg w', gjs_keep_alive_add_child default_host 100 7 4 14 finalizing_world =
               Abort msg w') ∧
  ¬ (∃ msg w', gjs_keep_alive_remove_child default_host 100 7 1 11 finalizing_world =
               Abort msg w').
Proof.
  split; [reflexivity |]. split; [vm_compute; reflexivity |].
  split; [vm_compute; reflexivity |].
  split; intros (msg & w' & H); vm_compute in H; discriminate H.
Qed.

(** C3 as amended, at the registry being finalized under fatal criticals. *)
Lemma reentrant_add_remove_reported_witness :
  ∃ check : string,
    let w' := emit (EvCritical check) finalizing_world in
    gjs_keep_alive_add_child strict_host 100 7 4 14 finalizing_world =
      (if fatal_criticals strict_host then Abort check w' else Done () w') ∧
    gjs_keep_alive_remove_child strict_host 100 7 4 14 finalizing_world =
      (if fatal_criticals strict_host then Abort check w' else Done () w') ∧
    privates w' = privates finalizing_world.
Proof.
  apply (reentrant_add_remove_reported strict_host finalizing_world 100 7 4 14
           (mkKeepAlive sample_children true false)).
  - discriminate.
  - reflexivity.
  - right. reflexivity.
Defined.

(** C10 at the sample registry: a duplicate add. *)
Lemma add_early_return_keeps_entries_witness :
  let result := gjs_keep_alive_add_child default_host 100 7 1 11 sample_world in
  privates (outcome_world result) = privates sample_world ∧
  privates (outcome_world result) !! 100 = Some sample_registry ∧
  (fatal_criticals default_host = false → ∃ w', result = Done () w').
Proof.
  apply (add_early_return_keeps_entries default_host sample_world 100 7 1 11
           sample_registry).
  - discriminate.
  - reflexivity.
  - right. right. apply (bool_decide_unpack _). vm_compute. exact I.
Defined.

(** C7 at the sample registry: handle 3 is registered under notifier 8,
    not under 7. *)
Lemma remove_absent_is_noop_witness :
  gjs_keep_alive_remove_child default_host 100 7 3 13 sample_world =
  Done () sample_world.
Proof.
  apply (remove_absent_is_noop default_host sample_world 100 7 3 13 sample_registry).
  - discriminate.
  - reflexivity.
  - split; reflexivity.
  - apply (bool_decide_unpack _). vm_compute. exact I.
Defined.

(** Entries under notifiers {7, 7, 8}: the walk for 7 hands out two
    pairs, the walk for 8 one, a walk for any other notifier none. *)
Example iterate_A_A_B :
  keep_alive_iterate 100 7 sample_world = Done [(2, 12); (1, 11)] sample_world ∧
  keep_alive_iterate 100 8 sample_world = Done [(3, 13)] sample_world ∧
  keep_alive_iterate 100 9 sample_world = Done [] sample_world.
Proof. repeat split; vm_compute; reflexivity. Qed.

(** C8 at the sample registry, filter 7. *)
Lemma iterate_yields_entries_of_notifier_witness :
  keep_alive_iterate 100 7 sample_world =
    Done (handle_and_data <$>
            filter (λ k, notify (deref k) = 7) (children sample_registry))
         sample_world.
Proof.
  apply (iterate_yields_entries_of_notifier sample_world 100 7 sample_registry).
  reflexivity.
Defined.

(** C6 at the sample registry with a collector that moves nothing. *)
Lemma trace_without_moves_preserves_entries_witness :
  (inside_trace sample_registry = false →
   keep_alive_trace default_host (λ p, p) 100 sample_world = Done () sample_world) ∧
  (∀ w', keep_alive_trace default_host (λ p, p) 100 sample_world = Done () w' →
     ∃ priv', privates w' !! 100 = Some priv' ∧
       children priv' = children sample_registry ∧
       inside_trace priv' = false).
Proof.
  apply (trace_without_moves_preserves_entries default_host (λ p, p) sample_world
           100 sample_registry).
  - reflexivity.
  - intros k _. reflexivity.
Defined.

(** C5, as stated, fails when the collector forwards one child to the
    address another child is forwarded away from: after the pass, a remove
    with the stale handle 2 of the second child takes out the first child,
    which now lives there. *)
Lemma stale_remove_hits_relocated_neighbour :
  mkKey 1001 (mkChild 2 7 5) ∈ [mkKey 1000 (mkChild 1 7 5); mkKey 1001 (mkChild 2 7 5)] ∧
  sliding_tracer 2 ≠ 2 ∧
  ∃ w1,
    keep_alive_trace default_host sliding_tracer 100 neighbours_world = Done () w1 ∧
    privates w1 !! 100 =
      Some (mkKeepAlive [mkKey 1000 (mkChild 2 7 5); mkKey 1001 (mkChild 3 7 5)]
                        false false) ∧
    gjs_keep_alive_remove_child default_host 100 7 2 5 w1 ≠ Done () w1 ∧
    ∃ w2,
      gjs_keep_alive_remove_child default_host 100 7 2 5 w1 = Done () w2 ∧
      privates w2 !! 100 =
        Some (mkKeepAlive [mkKey 1001 (mkChild 3 7 5)] false false) ∧
      log w2 = [EvChildFree 1000].
Proof.
  split; [apply list_elem_of_further, list_elem_of_here |].
  split; [discriminate |].
  eexists. split; [vm_compute; reflexivity |].
  split; [reflexivity |].
  split; [intros H; vm_compute in H; discriminate H |].
  eexists. split; [vm_compute; reflexivity |].
  split; reflexivity.
Qed.

(** C5 as amended, at the sample registry: the child at handle 1 moves
    to 9, is found there, and a remove with handle 1 changes nothing. *)
Lemma relocated_entry_follows_its_handle_witness :
  ∃ w1 priv1,
    keep_alive_trace default_host evacuating_tracer 100 sample_world = Done () w1 ∧
    privates w1 !! 100 = Some priv1 ∧
    mkChild 9 7 11 ∈ deref <$> children priv1 ∧
    gjs_keep_alive_remove_child default_host 100 7 1 11 w1 = Done () w1.
Proof.
  destruct (relocated_entry_follows_its_handle default_host evacuating_tracer
              sample_world 100 sample_registry (mkKey 1000 (mkChild 1 7 11)))
    as [_ (w1 & priv1 & Hrun & Hobj & _ & (found & tbl & Hd & Hin & _) & Hstale)].
  - discriminate.
  - reflexivity.
  - split; reflexivity.
  - apply (bool_decide_unpack _). vm_compute. exact I.
  - do 2 apply list_elem_of_further. apply list_elem_of_here.
  - discriminate.
  - exists w1, priv1. split; [exact Hrun |]. split; [exact Hobj |]. split.
    + change (deref found = mkChild 9 7 11) in Hd.
      rewrite <- Hd. by apply list_elem_of_fmap_2.
    + apply Hstale. intros x Hx.
      revert x Hx. apply Forall_forall.
      apply (bool_decide_unpack _). vm_compute. exact I.
Defined.

(** C4 at a context that never had a registry. *)
Lemma remove_global_child_creates_registry_witness :
  gjs_keep_alive_remove_global_child default_host (mkJSEngine true 512 1024) 7 1 11
      (mkWorld ∅ None false 4096 []) =
    Done () (with_new_registry 1024 (mkWorld ∅ None false 4096 [])).
Proof.
  apply (remove_global_child_creates_registry default_host
           (mkJSEngine true 512 1024) (mkWorld ∅ None false 4096 []) 7 1 11).
  - reflexivity.
  - reflexivity.
  - right. discriminate.
  - discriminate.
  - reflexivity.
Defined.

(** The registry it leaves behind, spelled out. *)
Example remove_global_child_on_fresh_context :
  gjs_keep_alive_remove_global_child default_host (mkJSEngine true 512 1024) 7 1 11
      (mkWorld ∅ None false 4096 []) =
    Done () (mkWorld {[ 1024 := mkKeepAlive [] false false ]} (Some 1024) true 4096 []).
Proof. vm_compute. reflexivity. Qed.

(** * Further properties of the code *)

(** ** The table under insertion and removal *)

Lemma remove_Some_split (tbl rest : list Key) (c : Child) (found : Key) :
  g_hash_table_remove tbl c = Some (found, rest) →
  ∃ pre post, tbl = pre ++ found :: post ∧ rest = pre ++ post ∧
    deref found = c ∧ c ∉ deref <$> pre.
Proof.
  revert rest. induction tbl as [| k tbl IH]; intros rest; simpl; [done |].
  destruct (child_equal (deref k) c) eqn:E.
  - apply child_equal_spec in E. intros [= <- <-]. exists [], tbl.
    repeat split; [done |]. rewrite fmap_nil. apply not_elem_of_nil.
  - apply child_equal_false in E.
    destruct (g_hash_table_remove tbl c) as [[r rest'] |]; [| done].
    intros [= <- <-]. destruct (IH rest' eq_refl) as (pre & post & -> & -> & Hd & Hpre).
    exists (k :: pre), post. repeat split; [done |].
    rewrite fmap_cons, not_elem_of_cons. split; [congruence | done].
Qed.


Lemma not_elem_of_take_drop (i : nat) (tbl : list Key) (c : Child) :
  c ∉ deref <$> tbl →
  (c ∉ deref <$> take i tbl) ∧ (c ∉ deref <$> drop i tbl).
Proof.
  intros H. rewrite <- (take_drop i tbl), fmap_app, elem_of_app in H. tauto.
Qed.


Lemma lookup_insert_at (i : nat) (k : Key) (tbl : list Key) :
  deref k ∉ deref <$> tbl →
  g_hash_table_lookup (insert_at i k tbl) (deref k) = Some k.
Proof.
  intros H. destruct (not_elem_of_take_drop i tbl _ H) as [Htake _].
  unfold insert_at, g_hash_table_lookup. revert Htake.
  induction (take i tbl) as [| x pre IH]; intros Hpre; simpl.
  - by rewrite child_equal_refl.
  - rewrite fmap_cons in Hpre. apply not_elem_of_cons in Hpre as [Hx Hpre].
    rewrite (proj2 (child_equal_false (deref x) (deref k))) by congruence.
    by apply IH.
Qed.

Section add_remove_more.
Context (host : Host).

(** X1: an add of a triple that is not registered, on an idle registry,
    allocates one [Child], files it and returns; the table is the old one
    plus the new key, a lookup of the triple now finds that key, the
    children are still a set, and nothing is logged. *)
Theorem add_registers_new_child
    (w : World) (keep_alive notify_ obj data_ : Z) (priv : KeepAlive) :
  keep_alive ≠ NULL →
  privates w !! keep_alive = Some priv →
  idle priv →
  mkChild obj notify_ data_ ∉ deref <$> children priv →
  ∃ w' tbl,
    gjs_keep_alive_add_child host keep_alive notify_ obj data_ w = Done () w' ∧
    privates w' = <[keep_alive := set_children tbl priv]> (privates w) ∧
    tbl ≡ₚ mkKey (slice_next w) (mkChild obj notify_ data_) :: children priv ∧
    g_hash_table_lookup tbl (mkChild obj notify_ data_) =
      Some (mkKey (slice_next w) (mkChild obj notify_ data_)) ∧
    (unique_children (children priv) → unique_children tbl) ∧
    slice_next w' = slice_next w + 1 ∧
    log w' = log w.
Proof.
  intros Hnn Hpriv Hidle Hnew.
  destruct (add_child_registers host w keep_alive notify_ obj data_ priv
              Hnn Hpriv Hidle Hnew) as (Hrun & Hperm & Hset).
  eexists _, _. split; [exact Hrun |].
  split; [done |]. split; [exact Hperm |]. split; [| by split].
  apply (lookup_insert_at _ (mkKey (slice_next w) (mkChild obj notify_ data_))).
  exact Hnew.
Qed.



End add_remove_more.

(** ** What add and remove do in every case *)

Lemma critical_world (host : Host) (check : string) (w : World) :
  outcome_world (g_critical host check w) = emit (EvCritical check) w.
Proof. unfold g_critical. by destruct (fatal_criticals host). Qed.

Lemma omap_notification_app_quiet (l evs : list event) :
  Forall quiet evs → omap notification (l ++ evs) = omap notification l.
Proof. intros H. by rewrite omap_app, (omap_quiet _ H), app_nil_r. Qed.

Lemma reinsert_all_quiet (host : Host) (l : list Key) :
  ∀ tbl w, ∃ tbl' w', reinsert_all host l tbl w = Done tbl' w' ∧
    privates w' = privates w ∧ global_slot w' = global_slot w ∧
    class_defined w' = class_defined w ∧ slice_next w' = slice_next w ∧
    ∃ evs, log w' = log w ++ evs ∧ Forall quiet evs.
Proof.
  induction l as [| k l IH]; intros tbl w.
  - exists tbl, w. do 5 (split; [done |]). exists []. by rewrite app_nil_r.
  - cbn [reinsert_all]. unfold mbind, M_bind, reinsert, g_hash_table_replace.
    destruct (replace_existing tbl k) as [[old tbl1] |].
    + run_M. destruct (IH tbl1 (emit (EvChildFree (addr old)) w))
        as (tbl2 & w2 & -> & Hp & Hs & Hc & Hn & evs & Hl & Hq).
      exists tbl2, w2. do 5 (split; [done |]).
      exists (EvChildFree (addr old) :: evs). rewrite Hl. cbn [emit log].
      rewrite <- app_assoc. split; [done |]. by constructor.
    + run_M. apply IH.
Qed.

Section every_case.
Context (host : Host).

Lemma touches_only_same (keep_alive : Z) (w : World) : touches_only keep_alive w w.
Proof. split; [| done]. exists []. by rewrite app_nil_r. Qed.

Lemma touches_only_critical (keep_alive : Z) (check : string) (w0 w : World) :
  privates w0 = privates w → log w0 = log w → global_slot w0 = global_slot w →
  touches_only keep_alive w (outcome_world (g_critical host check w0)).
Proof.
  intros Hp Hl Hs. rewrite critical_world. split; [| split].
  - exists [EvCritical check]. cbn [emit log]. rewrite Hl. split; [done |].
    by repeat constructor.
  - done.
  - intros obj _. cbn [emit privates]. by rewrite Hp.
Qed.

Lemma add_child_touches (keep_alive notify_ obj data_ : Z) (w : World) :
  touches_only keep_alive w
    (outcome_world (gjs_keep_alive_add_child host keep_alive notify_ obj data_ w)).
Proof.
  destruct (decide (keep_alive = NULL)) as [-> | Hnn].
  { unfold gjs_keep_alive_add_child. run_M. apply touches_only_same. }
  destruct (privates w !! keep_alive) as [priv |] eqn:Hpriv.
  2: { unfold gjs_keep_alive_add_child. run_M. rewrite (NULL_eqb _ Hnn).
       cbn [negb]. rewrite Hpriv. apply touches_only_same. }
  rewrite (add_child_cases host _ _ _ _ _ _ Hnn Hpriv).
  destruct (inside_trace priv); [by apply touches_only_critical |].
  destruct (inside_finalize priv); [by apply touches_only_critical |].
  destruct (g_hash_table_lookup _ _); [by apply touches_only_critical |].
  unfold mbind, M_bind.
  destruct (g_hash_table_replace_effect host (children priv)
              (mkKey (slice_next w) (mkChild obj notify_ data_)) (after_alloc w))
    as (tbl' & w1 & Hrep & Hp1 & evs & Hl1 & Hq).
  rewrite Hrep.
  assert (privates w1 !! keep_alive = Some priv) as Hpriv1 by by rewrite Hp1.
  rewrite (update_priv_Some _ _ _ _ Hpriv1). cbn [outcome_world].
  split; [| split].
  - exists evs. by cbn [set_privates log].
  - cbn [set_privates global_slot]. clear -Hrep.
    unfold g_hash_table_replace in Hrep.
    destruct (replace_existing _ _) as [[? ?] |]; revert Hrep; run_M;
      by intros [= _ <-].
  - intros o Ho. cbn [set_privates privates].
    rewrite lookup_insert_ne by done. by rewrite Hp1.
Qed.

Lemma remove_child_touches (keep_alive notify_ obj data_ : Z) (w : World) :
  touches_only keep_alive w
    (outcome_world (gjs_keep_alive_remove_child host keep_alive notify_ obj data_ w)).
Proof.
  destruct (decide (keep_alive = NULL)) as [-> | Hnn].
  { unfold gjs_keep_alive_remove_child. run_M. apply touches_only_same. }
  destruct (privates w !! keep_alive) as [priv |] eqn:Hpriv.
  2: { unfold gjs_keep_alive_remove_child. run_M. rewrite (NULL_eqb _ Hnn).
       cbn [negb]. rewrite Hpriv. apply touches_only_same. }
  rewrite (remove_child_cases host _ _ _ _ _ _ Hnn Hpriv).
  destruct (inside_trace priv); [by apply touches_only_critical |].
  destruct (inside_finalize priv); [by apply touches_only_critical |].
  destruct (g_hash_table_remove _ _) as [[found tbl] |];
    [| apply touches_only_same].
  cbn [outcome_world]. split; [| split].
  - exists [EvChildFree (addr found)]. split; [done |]. by repeat constructor.
  - done.
  - intros o Ho. cbn [emit set_privates privates]. by rewrite lookup_insert_ne.
Qed.

(** X5: add and remove on one registry never touch another: whatever the
    outcome (normal return, refused call, abort), every other registry of
    the process and the context's slot are as before. *)
Theorem add_remove_leave_other_registries
    (w : World) (keep_alive notify_ obj data_ other : Z) :
  other ≠ keep_alive →
  let added := outcome_world
    (gjs_keep_alive_add_child host keep_alive notify_ obj data_ w) in
  let removed := outcome_world
    (gjs_keep_alive_remove_child host keep_alive notify_ obj data_ w) in
  privates added !! other = privates w !! other ∧
  privates removed !! other = privates w !! other ∧
  global_slot added = global_slot w ∧
  global_slot removed = global_slot w.
Proof.
  intros Hne added removed.
  destruct (add_child_touches keep_alive notify_ obj data_ w) as (_ & Hs1 & Hp1).
  destruct (remove_child_touches keep_alive notify_ obj data_ w) as (_ & Hs2 & Hp2).
  split; [by apply Hp1 |]. split; [by apply Hp2 |]. by split.
Qed.

(** X6: a registry that is idle and whose children form a set is so again
    after add and after remove, whatever the outcome of the call. *)
Theorem add_remove_keep_registry_wellformed
    (w : World) (keep_alive notify_ obj data_ : Z) (priv : KeepAlive) :
  privates w !! keep_alive = Some priv →
  idle priv →
  unique_children (children priv) →
  (∃ priv', privates (outcome_world
              (gjs_keep_alive_add_child host keep_alive notify_ obj data_ w))
              !! keep_alive = Some priv' ∧
            idle priv' ∧ unique_children (children priv')) ∧
  (∃ priv', privates (outcome_world
              (gjs_keep_alive_remove_child host keep_alive notify_ obj data_ w))
              !! keep_alive = Some priv' ∧
            idle priv' ∧ unique_children (children priv')).
Proof.
  intros Hpriv Hidle Hset.
  destruct (decide (keep_alive = NULL)) as [Heq | Hnn].
  { subst keep_alive. split; exists priv;
      unfold gjs_keep_alive_add_child, gjs_keep_alive_remove_child; run_M; done. }
  pose proof Hidle as [Ht Hf]. split.
  - rewrite (add_child_cases host _ _ _ _ _ _ Hnn Hpriv), Ht, Hf.
    destruct (g_hash_table_lookup _ _) eqn:E.
    + exists priv. by rewrite critical_world.
    + apply lookup_None_iff in E.
      destruct (add_child_registers host w keep_alive notify_ obj data_ priv
                  Hnn Hpriv Hidle E) as (Hrun & _ & Hset').
      rewrite (add_child_cases host _ _ _ _ _ _ Hnn Hpriv), Ht, Hf in Hrun.
      rewrite (proj2 (lookup_None_iff _ _) E) in Hrun. rewrite Hrun.
      eexists. split; [cbn [outcome_world set_privates privates];
                       apply lookup_insert_eq |].
      split; [done | by apply Hset'].
  - rewrite (remove_child_cases host _ _ _ _ _ _ Hnn Hpriv), Ht, Hf.
    destruct (g_hash_table_remove _ _) as [[found tbl] |] eqn:E.
    + destruct (remove_Some_split _ _ _ _ E) as (pre & post & Hsplit & -> & _ & _).
      eexists. split; [cbn [outcome_world emit set_privates privates];
                       apply lookup_insert_eq |].
      split; [done |]. cbn [set_children children]. unfold unique_children in *.
      eapply sublist_NoDup; [exact Hset |]. apply fmap_sublist. rewrite Hsplit.
      apply sublist_app; [done |]. by apply sublist_cons.
    + by exists priv.
Qed.

(** X7: on an object without private data (the class prototype) add,
    remove and the start of an iteration abort the process, under every
    GLib configuration, before they change anything; add and remove also
    abort on a NULL object. *)
Theorem calls_need_a_registry
    (w : World) (keep_alive notify_ obj data_ : Z) :
  privates w !! keep_alive = None →
  let msg := if keep_alive =? NULL then "keep_alive != NULL" else "priv != NULL" in
  gjs_keep_alive_add_child host keep_alive notify_ obj data_ w = Abort msg w ∧
  gjs_keep_alive_remove_child host keep_alive notify_ obj data_ w = Abort msg w ∧
  (keep_alive ≠ NULL →
   gjs_keep_alive_iterator_init keep_alive w = Abort "priv != NULL" w ∧
   keep_alive_iterate keep_alive notify_ w = Abort "priv != NULL" w).
Proof.
  intros Hnone msg. subst msg.
  unfold gjs_keep_alive_add_child, gjs_keep_alive_remove_child,
    keep_alive_iterate, gjs_keep_alive_iterator_init.
  run_M. destruct (keep_alive =? NULL); cbn [negb]; cbv beta iota;
    rewrite ?Hnone; done.
Qed.

End every_case.

(** X8: add and remove never call a notifier, and neither does a trace
    pass: after each of them the notifier calls on record are the ones
    that were there before.  Calling notifiers is left to the finalizer. *)
Theorem only_the_finalizer_notifies
    (host : Host) (tracer : Z → Z) (w : World) (keep_alive notify_ obj data_ : Z) :
  omap notification (log (outcome_world
    (gjs_keep_alive_add_child host keep_alive notify_ obj data_ w))) =
    omap notification (log w) ∧
  omap notification (log (outcome_world
    (gjs_keep_alive_remove_child host keep_alive notify_ obj data_ w))) =
    omap notification (log w) ∧
  omap notification (log (outcome_world
    (keep_alive_trace host tracer keep_alive w))) =
    omap notification (log w).
Proof.
  split; [| split].
  - destruct (add_child_touches host keep_alive notify_ obj data_ w)
      as ((evs & -> & Hq) & _). by apply omap_notification_app_quiet.
  - destruct (remove_child_touches host keep_alive notify_ obj data_ w)
      as ((evs & -> & Hq) & _). by apply omap_notification_app_quiet.
  - unfold keep_alive_trace. run_M.
    destruct (privates w !! keep_alive) as [priv |] eqn:Hpriv; [| done].
    destruct (inside_trace priv); cbn [negb]; [done |].
    rewrite (update_priv_Some _ _ _ _ Hpriv).
    destruct (trace_scan tracer (children priv) []) as [kept staged].
    destruct (reinsert_all_quiet host staged kept
                (set_privates <[keep_alive := set_inside_trace true priv]> w))
      as (tbl1 & w1 & Hre & Hp1 & _ & _ & _ & evs & Hl & Hq).
    rewrite Hre.
    assert (privates w1 !! keep_alive = Some (set_inside_trace true priv)) as Hk.
    { rewrite Hp1. cbn [set_privates privates]. apply lookup_insert_eq. }
    rewrite (update_priv_Some _ _ _ _ Hk).
    rewrite (update_priv_Some _ _ (set_children tbl1 (set_inside_trace true priv)))
      by (cbn [set_privates privates]; apply lookup_insert_eq).
    cbn [outcome_world set_privates log]. rewrite Hl. cbn [set_privates log].
    by apply omap_notification_app_quiet.
Qed.

(** ** The trace pass in every case *)

Lemma reinsert_all_fresh (host : Host) (l : list Key) :
  ∀ tbl w, NoDup (deref <$> (l ++ tbl)) →
    ∃ tbl', reinsert_all host l tbl w = Done tbl' w ∧ tbl' ≡ₚ l ++ tbl.
Proof.
  induction l as [| k l IH]; intros tbl w Hnd.
  - by exists tbl.
  - cbn [reinsert_all]. unfold mbind, M_bind, reinsert, g_hash_table_replace.
    rewrite <- app_comm_cons, fmap_cons in Hnd.
    apply NoDup_cons in Hnd as [Hk Hnd].
    assert (deref k ∉ deref <$> tbl) as Hfree.
    { intros Hin. apply Hk. rewrite fmap_app, elem_of_app. by right. }
    rewrite (proj2 (replace_existing_None tbl k) Hfree). run_M.
    destruct (IH (insert_at (place host (deref k) tbl) k tbl) w)
      as (tbl' & Hrun & Hperm).
    { rewrite insert_at_perm. rewrite fmap_app, fmap_cons.
      rewrite <- Permutation_middle, <- fmap_app. by apply NoDup_cons. }
    exists tbl'. split; [done |]. rewrite Hperm, insert_at_perm.
    by rewrite <- Permutation_middle.
Qed.

Lemma scan_partition (tracer : Z → Z) (tbl : list Key) :
  reverse (relocate tracer <$> filter (moved tracer) tbl) ++
    filter (λ k, ¬ moved tracer k) tbl ≡ₚ relocate tracer <$> tbl.
Proof.
  rewrite reverse_Permutation.
  rewrite <- (filter_app_complement (moved tracer) tbl) at 3.
  rewrite fmap_app. f_equiv.
  induction tbl as [| k tbl IH]; [done |].
  rewrite filter_cons. destruct (decide (¬ moved tracer k)) as [Hfix | ?]; [| done].
  by rewrite fmap_cons, (relocate_unmoved tracer k Hfix), <- IH.
Qed.

Section trace_more.
Context (host : Host).

(** X9: the three ways a trace pass can go.  On the prototype it does
    nothing.  On a registry that is already inside trace it aborts, under
    every GLib configuration.  Otherwise it completes and changes nothing
    but the children of this registry: their identities are exactly the old
    ones as the collector forwarded them, every key is an old key with its
    handle forwarded, a set stays a set, and [inside_trace] is false again. *)
Theorem trace_outcome (tracer : Z → Z) (w : World) (obj : Z) :
  match privates w !! obj with
  | None => keep_alive_trace host tracer obj w = Done () w
  | Some priv =>
      if inside_trace priv
      then keep_alive_trace host tracer obj w = Abort "!priv->inside_trace" w
      else ∃ w1 tbl1,
        keep_alive_trace host tracer obj w = Done () w1 ∧
        privates w1 =
          <[obj := mkKeepAlive tbl1 (inside_finalize priv) false]> (privates w) ∧
        global_slot w1 = global_slot w ∧
        slice_next w1 = slice_next w ∧
        (∀ c, c ∈ deref <$> tbl1 ↔
              ∃ x, x ∈ children priv ∧
                   c = JS_CallHeapObjectTracer tracer (deref x)) ∧
        (∀ k, k ∈ tbl1 → ∃ x, x ∈ children priv ∧ k = relocate tracer x) ∧
        (unique_children (children priv) → unique_children tbl1)
  end.
Proof.
  unfold keep_alive_trace. run_M.
  destruct (privates w !! obj) as [priv |] eqn:Hobj; [| done].
  destruct (inside_trace priv) eqn:Ht; cbn [negb]; [done |].
  rewrite (update_priv_Some _ _ _ _ Hobj), trace_scan_spec, app_nil_r.
  set (staged := reverse (relocate tracer <$> filter (moved tracer) (children priv))).
  set (kept := filter (λ k, ¬ moved tracer k) (children priv)).
  set (w0 := set_privates _ w).
  destruct (reinsert_all_spec host staged kept w0)
    as (tbl1 & w1 & Hre & _ & Hin & Hsub & Hnd).
  destruct (reinsert_all_quiet host staged kept w0)
    as (tbl1' & w1' & Hre' & Hp1 & Hs1 & _ & Hn1 & _).
  rewrite Hre in Hre'. injection Hre' as <- <-. rewrite Hre.
  assert (privates w1 !! obj = Some (set_inside_trace true priv)) as Hobj1.
  { rewrite Hp1. subst w0. cbn [set_privates privates]. apply lookup_insert_eq. }
  rewrite (update_priv_Some _ _ _ _ Hobj1).
  rewrite (update_priv_Some _ _ (set_children tbl1 (set_inside_trace true priv)))
    by (cbn [set_privates privates]; apply lookup_insert_eq).
  eexists _, tbl1. split; [done |]. split; [| split; [done | split; [done |]]].
  - cbn [set_privates privates]. rewrite Hp1. subst w0.
    cbn [set_privates privates]. by rewrite !insert_insert_eq.
  - split; [| split].
    + intros c. rewrite Hin. apply relocated_identities.
    + intros k Hk. destruct (Hsub k Hk) as [Hst | Hkept].
      * apply elem_of_reverse, list_elem_of_fmap in Hst as (y & -> & Hy).
        apply list_elem_of_filter in Hy as [_ Hy]. by exists y.
      * apply list_elem_of_filter in Hkept as [Hfix Hkept]. exists k.
        split; [done |]. by rewrite (relocate_unmoved tracer k Hfix).
    + intros Hset. apply Hnd. unfold unique_children, kept.
      eapply sublist_NoDup; [exact Hset |]. apply fmap_sublist, sublist_filter.
Qed.

(** X10: when the collector forwards no two children of the registry to
    one identity, a trace pass loses nothing: afterwards the table holds,
    up to order, every old key at its own address with its handle
    forwarded; no child is freed, nothing is logged or allocated, and the
    rest of the world is untouched. *)
Theorem trace_moves_every_child
    (tracer : Z → Z) (w : World) (obj : Z) (priv : KeepAlive) :
  privates w !! obj = Some priv →
  inside_trace priv = false →
  unique_children (children priv) →
  forwards_apart tracer (children priv) →
  ∃ tbl1,
    keep_alive_trace host tracer obj w =
      Done () (set_privates
                 <[obj := mkKeepAlive tbl1 (inside_finalize priv) false]> w) ∧
    tbl1 ≡ₚ relocate tracer <$> children priv.
Proof.
  intros Hobj Ht Hset Hapart. unfold keep_alive_trace. run_M.
  rewrite Hobj. cbv beta iota. rewrite Ht. cbn [negb].
  rewrite (update_priv_Some _ _ _ _ Hobj), trace_scan_spec, app_nil_r.
  set (staged := reverse (relocate tracer <$> filter (moved tracer) (children priv))).
  set (kept := filter (λ k, ¬ moved tracer k) (children priv)).
  set (w0 := set_privates _ w).
  destruct (reinsert_all_fresh host staged kept w0) as (tbl1 & Hre & Hperm).
  { unfold staged, kept. rewrite scan_partition, <- list_fmap_compose.
    apply NoDup_fmap_2_strong; [| by eapply NoDup_fmap_1].
    intros x y Hx Hy Heq. apply (unique_children_inj (children priv)); try done.
    by apply Hapart. }
  rewrite Hre.
  rewrite (update_priv_Some _ _ (set_inside_trace true priv))
    by (subst w0; cbn [set_privates privates]; apply lookup_insert_eq).
  rewrite (update_priv_Some _ _ (set_children tbl1 (set_inside_trace true priv)))
    by (cbn [set_privates privates]; apply lookup_insert_eq).
  exists tbl1. split.
  - f_equal. subst w0. unfold set_privates. cbn. by rewrite !insert_insert_eq.
  - rewrite Hperm. apply scan_partition.
Qed.

End trace_more.

(** ** The finalizer when notifiers do not call back *)

Section finalize_more.
Context (host : Host).
Hypothesis notifiers_quiet : quiet_host host.

Lemma finalize_loop_quiet (obj : Z) (t : bool) (iter : list Key) :
  ∀ w, privates w !! obj = Some (mkKeepAlive iter true t) →
    finalize_loop host obj iter w =
    Done () (mkWorld (<[obj := mkKeepAlive [] true t]> (privates w))
                     (global_slot w) (class_defined w) (slice_next w)
                     (log w ++ drain_events iter)).
Proof.
  induction iter as [| key rest IH]; intros w Hobj.
  - cbn [finalize_loop drain_events]. unfold mret, M_ret.
    rewrite app_nil_r, (insert_id _ _ _ Hobj). by destruct w.
  - cbn [finalize_loop]. unfold mbind, M_bind.
    rewrite (update_priv_Some _ _ _ _ Hobj).
    cbn [children g_hash_table_iter_steal]. rewrite Z.eqb_refl.
    set (w1 := set_privates _ w).
    assert (privates w1 !! obj = Some (mkKeepAlive rest true t)) as Hobj1.
    { subst w1. cbn [set_privates privates set_children inside_finalize inside_trace].
      apply lookup_insert_eq. }
    assert (∃ evs,
      invoke_notify host obj (deref key) w1 =
        Done () (mkWorld (privates w1) (global_slot w1) (class_defined w1)
                         (slice_next w1) (log w1 ++ evs)) ∧
      evs = (if notify (deref key) =? NULL then []
             else [EvNotify (notify (deref key)) (child (deref key))
                            (data (deref key)) rest])) as (evs & -> & Hevs).
    { unfold invoke_notify. destruct (notify (deref key) =? NULL).
      - exists []. rewrite app_nil_r. split; [by destruct w1 | done].
      - eexists. split; [| done]. run_M. rewrite Hobj1, notifiers_quiet.
        done. }
    unfold child_free, modify. rewrite IH by done.
    f_equal. cbn [emit privates global_slot class_defined slice_next log].
    subst w1. cbn [set_privates privates global_slot class_defined slice_next log].
    rewrite insert_insert_eq, Hevs. cbn [drain_events].
    by rewrite <- !app_assoc.
Qed.

(** X11: with notifiers that do not call back, the finalizer has one
    outcome.  On the prototype it does nothing.  On a registry it returns,
    having called the notifiers in table order, each with the children left
    at that moment, freed every key once right after its notifier, found
    the table empty, and released the registry; every other registry, the
    slot and the allocator are as before. *)
Theorem finalize_with_quiet_notifiers (w : World) (obj : Z) :
  keep_alive_finalize host obj w =
  match privates w !! obj with
  | None => Done () w
  | Some priv =>
      Done () (mkWorld (delete obj (privates w))
                       (global_slot w) (class_defined w) (slice_next w)
                       (log w ++ drain_events (children priv)
                              ++ [EvTableDestroy []; EvPrivFree]))
  end.
Proof.
  unfold keep_alive_finalize. unfold mbind at 1, M_bind, JS_GetPrivate.
  destruct (privates w !! obj) as [priv |] eqn:Hobj; [| done].
  unfold mbind, M_bind. rewrite (update_priv_Some _ _ _ _ Hobj).
  rewrite (finalize_loop_quiet obj (inside_trace priv) (children priv))
    by (cbn [set_privates privates]; apply lookup_insert_eq).
  unfold g_hash_table_destroy, mbind, M_bind, JS_GetPrivate, modify.
  cbn [privates set_privates]. rewrite lookup_insert_eq.
  cbn [from_option children fmap list_fmap free_all]. unfold mret, M_ret.
  unfold free_priv, mbind, M_bind, modify. f_equal.
  unfold emit, set_privates. cbn. f_equal.
  - by rewrite !insert_insert_eq, delete_insert_eq.
  - by rewrite <- !app_assoc.
Qed.

End finalize_more.

(** ** The singleton of a context *)

Lemma keep_alive_create_Done (js : JSEngine) (w w' : World) (keep_alive : Z) :
  gjs_keep_alive_create js w = Done keep_alive w' →
  keep_alive ≠ NULL ∧ global_slot w' = Some keep_alive.
Proof.
  unfold gjs_keep_alive_create, mbind, M_bind.
  destruct (gjs_keep_alive_new js w) as [o w1 |]; [| done].
  destruct (Z.eqb_spec o NULL) as [? | Hne]; [done |].
  unfold modify, mret, M_ret. by intros [= <- <-].
Qed.

(** X12: a registry that [gjs_keep_alive_get_global] has handed out is the
    registry of the context from then on: it is not NULL, it is in the
    slot, and every later lookup, creating or not, returns it without
    consulting the engine or changing anything. *)
Theorem get_global_is_cached (js : JSEngine) (w w' : World) (keep_alive : Z) :
  gjs_keep_alive_get_global js w = Done keep_alive w' →
  keep_alive ≠ NULL ∧
  global_slot w' = Some keep_alive ∧
  gjs_keep_alive_get_global_if_exists w' = Done keep_alive w' ∧
  ∀ js', gjs_keep_alive_get_global js' w' = Done keep_alive w'.
Proof.
  intros Hget.
  assert (keep_alive ≠ NULL ∧ global_slot w' = Some keep_alive) as [Hnn Hslot].
  { revert Hget.
    unfold gjs_keep_alive_get_global, gjs_keep_alive_get_global_if_exists,
      mbind, M_bind.
    destruct (global_slot w) as [o |] eqn:Hs.
    - destruct (Z.eqb_spec o NULL) as [? | Hne]; cbn [negb].
      + apply keep_alive_create_Done.
      + unfold mret, M_ret. intros [= <- <-]. by split.
    - cbn [Z.eqb NULL negb]. apply keep_alive_create_Done. }
  split; [done |]. split; [done |].
  unfold gjs_keep_alive_get_global, gjs_keep_alive_get_global_if_exists,
    mbind, M_bind. rewrite Hslot. split; [done |].
  intros js'. by rewrite (NULL_eqb _ Hnn).
Qed.

(** X13: when the context has no registry yet and a step of the engine
    fails (JS_HasProperty, JS_InitClass, JS_NewObject, or an object that
    already carries private data), the lookup aborts the process, and so do
    the two global wrappers; no registry is created and the slot stays
    empty. *)
Theorem registry_creation_failure_is_fatal
    (host : Host) (js : JSEngine) (w : World) (notify_ child_ data_ : Z) :
  no_registry_yet w →
  engine_fails js w →
  ∃ msg w',
    gjs_keep_alive_get_global js w = Abort msg w' ∧
    gjs_keep_alive_add_global_child host js notify_ child_ data_ w = Abort msg w' ∧
    gjs_keep_alive_remove_global_child host js notify_ child_ data_ w = Abort msg w' ∧
    privates w' = privates w ∧
    global_slot w' = global_slot w.
Proof.
  intros Hslot Hfail.
  assert (∃ msg w', gjs_keep_alive_create js w = Abort msg w' ∧
            privates w' = privates w ∧ global_slot w' = global_slot w)
    as (msg & w' & Hcreate & Hp & Hs).
  { unfold gjs_keep_alive_create, gjs_keep_alive_new. run_M.
    destruct (has_property_ok js) eqn:Hprop; cbn [negb]; [| by eexists _, _].
    destruct (class_defined w) eqn:Hc; cbv beta iota.
    - destruct (Z.eqb_spec (new_object js) NULL) as [? | Hobj]; [by eexists _, _ |].
      destruct (privates w !! new_object js) eqn:Hpriv.
      + rewrite bool_decide_eq_false_2 by done. by eexists _, _.
      + exfalso. destruct Hfail as [? | [[? _] | [? | [? ?]]]]; congruence.
    - destruct (Z.eqb_spec (init_class js) NULL) as [? | Hinit]; [by eexists _, _ |].
      destruct (Z.eqb_spec (new_object js) NULL) as [? | Hobj]; [by eexists _, _ |].
      cbn [set_class_defined privates].
      destruct (privates w !! new_object js) eqn:Hpriv.
      + rewrite bool_decide_eq_false_2 by done. by eexists _, _.
      + exfalso. destruct Hfail as [? | [[_ ?] | [? | [? ?]]]]; congruence. }
  assert (gjs_keep_alive_get_global js w = Abort msg w') as Hget.
  { unfold gjs_keep_alive_get_global, gjs_keep_alive_get_global_if_exists,
      mbind, M_bind. by destruct Hslot as [-> | ->]. }
  exists msg, w'. split; [done |].
  unfold gjs_keep_alive_add_global_child, gjs_keep_alive_remove_global_child,
    mbind, M_bind. by rewrite Hget.
Qed.

Section global_round_trip.
Context (host : Host).

(** X14: on a context without registry and with a working engine,
    [gjs_keep_alive_add_global_child] creates the registry, records it in
    the slot and registers the child as its only entry; a following
    [gjs_keep_alive_remove_global_child] of the same triple, whatever the
    engine would answer then, finds the registry in the slot, takes the
    child out and frees it, leaving the registry empty and in place. *)
Theorem global_add_then_remove
    (js : JSEngine) (w : World) (notify_ child_ data_ : Z) :
  global_slot w = None →
  engine_works js w →
  let keep_alive := new_object js in
  let key := mkKey (slice_next w) (mkChild child_ notify_ data_) in
  ∃ w1,
    gjs_keep_alive_add_global_child host js notify_ child_ data_ w = Done () w1 ∧
    global_slot w1 = Some keep_alive ∧
    privates w1 = <[keep_alive := mkKeepAlive [key] false false]> (privates w) ∧
    log w1 = log w ∧
    ∀ js', ∃ w2,
      gjs_keep_alive_remove_global_child host js' notify_ child_ data_ w1 =
        Done () w2 ∧
      global_slot w2 = Some keep_alive ∧
      privates w2 = <[keep_alive := mkKeepAlive [] false false]> (privates w) ∧
      log w2 = log w ++ [EvChildFree (slice_next w)].
Proof.
  intros Hslot (Hprop & Hclass & Hobj0 & Hfresh) keep_alive key.
  assert (keep_alive ≠ NULL) as Hobj by exact Hobj0.
  assert (gjs_keep_alive_get_global js w =
          Done keep_alive (with_new_registry keep_alive w)) as Hget.
  { unfold gjs_keep_alive_get_global, gjs_keep_alive_get_global_if_exists,
      mbind, M_bind. rewrite Hslot. cbn [Z.eqb NULL negb].
    by apply keep_alive_create_ok. }
  set (w0 := with_new_registry keep_alive w).
  assert (privates w0 !! keep_alive = Some (mkKeepAlive [] false false)) as Hpriv0
    by apply lookup_insert_eq.
  destruct (add_child_registers host w0 keep_alive notify_ child_ data_
              (mkKeepAlive [] false false) Hobj Hpriv0) as (Hadd & _ & _);
    [by split | cbn [children]; rewrite fmap_nil; apply not_elem_of_nil |].
  cbn [children] in Hadd. unfold insert_at in Hadd.
  rewrite take_nil, drop_nil in Hadd. cbn [app] in Hadd.
  change (slice_next w0) with (slice_next w) in Hadd. fold key in Hadd.
  eexists. split.
  { unfold gjs_keep_alive_add_global_child, mbind, M_bind. rewrite Hget.
    exact Hadd. }
  split; [done |]. split.
  { cbn [set_privates privates after_alloc]. subst w0.
    cbn [with_new_registry privates]. by rewrite insert_insert_eq. }
  split; [done |]. intros js'.
  set (w1 := set_privates _ (after_alloc w0)).
  assert (gjs_keep_alive_get_global js' w1 = Done keep_alive w1) as Hget'.
  { unfold gjs_keep_alive_get_global, gjs_keep_alive_get_global_if_exists,
      mbind, M_bind. cbn [w1 set_privates after_alloc w0 with_new_registry global_slot].
    by rewrite (NULL_eqb keep_alive Hobj). }
  assert (privates w1 !! keep_alive = Some (mkKeepAlive [key] false false)) as Hpriv1
    by apply lookup_insert_eq.
  eexists. split.
  { unfold gjs_keep_alive_remove_global_child, mbind, M_bind. rewrite Hget'.
    rewrite (NULL_eqb keep_alive Hobj). unfold mret, M_ret.
    rewrite (remove_child_cases host _ _ _ _ _ _ Hobj Hpriv1).
    cbn [inside_trace inside_finalize children g_hash_table_remove key deref].
    by rewrite child_equal_refl. }
  split; [done |]. split; [| done].
  cbn [emit set_privates privates]. subst w1 w0.
  cbn [set_privates after_alloc with_new_registry privates].
  by rewrite !insert_insert_eq.
Qed.

End global_round_trip.

(** ** One step of an iteration *)

(** X16: one call of [gjs_keep_alive_iterator_next].  When it returns
    true, it has skipped only entries of other notifiers, hands out the
    handle and data of the first entry of the wanted notifier, and leaves
    the iterator right behind that entry.  When it returns false, no
    remaining entry had the wanted notifier and the iterator is exhausted,
    so every later call returns false as well. *)
Theorem iterator_next_step (iter : list Key) (notify_func : Z) :
  match gjs_keep_alive_iterator_next iter notify_func with
  | (Some out, iter') =>
      ∃ skipped k,
        iter = skipped ++ k :: iter' ∧
        Forall (λ x, notify (deref x) ≠ notify_func) skipped ∧
        notify (deref k) = notify_func ∧
        out = (child (deref k), data (deref k))
  | (None, iter') =>
      Forall (λ x, notify (deref x) ≠ notify_func) iter ∧
      iter' = [] ∧
      gjs_keep_alive_iterator_next iter' notify_func = (None, [])
  end.
Proof.
  induction iter as [| k iter IH]; [by repeat split |].
  cbn [gjs_keep_alive_iterator_next].
  destruct (Z.eqb_spec (notify (deref k)) notify_func) as [Heq | Hne]; cbn [negb].
  - exists [], k. by repeat split.
  - destruct (gjs_keep_alive_iterator_next iter notify_func) as [[out |] iter'].
    + destruct IH as (skipped & k' & -> & Hskip & Hk & Hout).
      exists (k :: skipped), k'. split; [done |]. split; [by constructor | done].
    + destruct IH as (Hall & -> & Hnext). split; [by constructor | done].
Qed.

(** ** The check in gjs_keep_alive_remove_global_child *)

Ltac in_list :=
  repeat first [apply list_elem_of_here | apply list_elem_of_further].

Lemma remove_child_abort_msg (host : Host)
    (keep_alive notify_ obj data_ : Z) (w w' : World) (msg : string) :
  gjs_keep_alive_remove_child host keep_alive notify_ obj data_ w = Abort msg w' →
  msg ∈ ["keep_alive != NULL"; "priv != NULL";
         "!priv->inside_trace"; "!priv->inside_finalize"].
Proof.
  destruct (decide (keep_alive = NULL)) as [-> | Hnn].
  { unfold gjs_keep_alive_remove_child. run_M. intros [= <- _]. in_list. }
  destruct (privates w !! keep_alive) as [priv |] eqn:Hpriv.
  2: { unfold gjs_keep_alive_remove_child. run_M. rewrite (NULL_eqb _ Hnn).
       cbn [negb]. rewrite Hpriv. intros [= <- _]. in_list. }
  rewrite (remove_child_cases host _ _ _ _ _ _ Hnn Hpriv). unfold g_critical.
  destruct (inside_trace priv).
  { destruct (fatal_criticals host); [| done]. intros [= <- _]. in_list. }
  destruct (inside_finalize priv).
  { destruct (fatal_criticals host); [| done]. intros [= <- _]. in_list. }
  by destruct (g_hash_table_remove _ _) as [[? ?] |].
Qed.

Lemma keep_alive_new_abort_msg (js : JSEngine) (w w' : World) (msg : string) :
  gjs_keep_alive_new js w = Abort msg w' →
  msg ∈ ["Can't init class"; "Failed to create keep_alive object";
         "priv_from_js(context, keep_alive) == NULL"].
Proof.
  unfold gjs_keep_alive_new. run_M.
  destruct (has_property_ok js); cbn [negb]; [| done].
  destruct (class_defined w); cbv beta iota;
    [| destruct (init_class js =? NULL); [intros [= <- _]; in_list |]];
    (destruct (new_object js =? NULL); [intros [= <- _]; in_list |]);
    (case_bool_decide; [done | intros [= <- _]; in_list]).
Qed.

Lemma get_global_abort_msg (js : JSEngine) (w w' : World) (msg : string) :
  gjs_keep_alive_get_global js w = Abort msg w' →
  msg ∈ ["could not create keep_alive on global object, no memory?";
         "Can't init class"; "Failed to create keep_alive object";
         "priv_from_js(context, keep_alive) == NULL"].
Proof.
  unfold gjs_keep_alive_get_global, gjs_keep_alive_get_global_if_exists,
    mbind, M_bind.
  destruct (negb _); [done |].
  unfold gjs_keep_alive_create, mbind, M_bind.
  destruct (gjs_keep_alive_new js w) as [o w1 | m w1] eqn:Hnew.
  - destruct (o =? NULL); [| done]. intros [= <- _]. in_list.
  - intros [= <- _]. apply list_elem_of_further.
    by apply (keep_alive_new_abort_msg js w w1).
Qed.

(** X15: [gjs_keep_alive_remove_global_child] never ends in its own
    g_error ("no keep_alive property on the global object ..."): the
    registry it gets from [gjs_keep_alive_get_global] is never NULL, and
    every abort of the call carries another message. *)
Theorem remove_global_child_check_is_dead
    (host : Host) (js : JSEngine) (w w' : World) (notify_ child_ data_ : Z) :
  gjs_keep_alive_remove_global_child host js notify_ child_ data_ w ≠
  Abort "no keep_alive property on the global object, have you previously added this child?" w'.
Proof.
  unfold gjs_keep_alive_remove_global_child, mbind, M_bind.
  destruct (gjs_keep_alive_get_global js w) as [keep_alive w1 | msg w1] eqn:Hget.
  - rewrite (NULL_eqb _ (get_global_not_NULL js w w1 keep_alive Hget)).
    unfold mret, M_ret. intros Habort.
    apply remove_child_abort_msg in Habort.
    repeat (apply elem_of_cons in Habort as [Habort | Habort];
            [discriminate Habort |]).
    by apply elem_of_nil in Habort.
  - intros [= -> _]. apply get_global_abort_msg in Hget.
    repeat (apply elem_of_cons in Hget as [Hget | Hget]; [discriminate Hget |]).
    by apply elem_of_nil in Hget.
Qed.

(** ** Iteration after an add *)

(** X17: a child that add has registered is seen by the next walk for its
    notifier, once, next to the pairs the walk handed out before; walks for
    other notifiers hand out what they did before. *)
Theorem iterate_after_add
    (host : Host) (w : World) (keep_alive notify_ obj data_ : Z)
    (priv : KeepAlive) (notify_func : Z) :
  keep_alive ≠ NULL →
  privates w !! keep_alive = Some priv →
  idle priv →
  mkChild obj notify_ data_ ∉ deref <$> children priv →
  ∃ w' before after,
    gjs_keep_alive_add_child host keep_alive notify_ obj data_ w = Done () w' ∧
    keep_alive_iterate keep_alive notify_func w = Done before w ∧
    keep_alive_iterate keep_alive notify_func w' = Done after w' ∧
    after ≡ₚ (if decide (notify_ = notify_func) then [(obj, data_)] else [])
             ++ before.
Proof.
  intros Hnn Hpriv Hidle Hnew.
  destruct (add_child_registers host w keep_alive notify_ obj data_ priv
              Hnn Hpriv Hidle Hnew) as (Hrun & Hperm & _).
  cbv zeta in Hrun, Hperm.
  set (tbl := insert_at _ _ (children priv)) in *.
  assert (∀ w0 p, privates w0 !! keep_alive = Some p →
            keep_alive_iterate keep_alive notify_func w0 =
            Done (handle_and_data <$>
                    filter (λ k, notify (deref k) = notify_func) (children p)) w0)
    as Hwalk.
  { intros w0 p Hp. unfold keep_alive_iterate, gjs_keep_alive_iterator_init.
    run_M. rewrite Hp. cbv beta iota. by rewrite iterator_drain_enough by lia. }
  eexists _, _, _. split; [exact Hrun |]. split; [by apply Hwalk |].
  split.
  - apply (Hwalk _ (set_children tbl priv)).
    cbn [set_privates privates]. apply lookup_insert_eq.
  - cbn [set_children children]. rewrite Hperm, filter_cons. cbn [deref notify].
    by destruct (decide (notify_ = notify_func)).
Qed.

(** ** Instances of the further properties *)

(** X1 at the sample registry: handle 4 for notifier 7 is new. *)
Lemma add_registers_new_child_witness :
  ∃ w' tbl,
    gjs_keep_alive_add_child default_host 100 7 4 14 sample_world = Done () w' ∧
    privates w' = <[100 := set_children tbl sample_registry]> (privates sample_world) ∧
    tbl ≡ₚ mkKey (slice_next sample_world) (mkChild 4 7 14)
             :: children sample_registry ∧
    g_hash_table_lookup tbl (mkChild 4 7 14) =
      Some (mkKey (slice_next sample_world) (mkChild 4 7 14)) ∧
    (unique_children (children sample_registry) → unique_children tbl) ∧
    slice_next w' = slice_next sample_world + 1 ∧
    log w' = log sample_world.
Proof.
  apply (add_registers_new_child default_host sample_world 100 7 4 14 sample_registry).
  - discriminate.
  - reflexivity.
  - split; reflexivity.
  - apply (bool_decide_unpack _). vm_compute. exact I.
Defined.



(** X4 at the sample registry, under fatal criticals. *)
Lemma add_child_twice_witness :
  ∃ w1 priv1,
    gjs_keep_alive_add_child strict_host 100 7 4 14 sample_world = Done () w1 ∧
    privates w1 !! 100 = Some priv1 ∧
    let check := "g_hash_table_lookup(priv->children, child) == NULL" in
    let w2 := emit (EvCritical check) (after_alloc w1) in
    gjs_keep_alive_add_child strict_host 100 7 4 14 w1 =
      (if fatal_criticals strict_host then Abort check w2 else Done () w2) ∧
    privates w2 !! 100 = Some priv1.
Proof.
  apply (add_child_twice strict_host sample_world 100 7 4 14 sample_registry).
  - discriminate.
  - reflexivity.
  - split; reflexivity.
  - apply (bool_decide_unpack _). vm_compute. exact I.
Defined.

(** X5 in a world with two registries: calls on 100 leave 200 alone. *)
Lemma add_remove_leave_other_registries_witness :
  let added := outcome_world
    (gjs_keep_alive_add_child default_host 100 7 2 12 two_registries) in
  let removed := outcome_world
    (gjs_keep_alive_remove_child default_host 100 7 2 12 two_registries) in
  privates added !! 200 = privates two_registries !! 200 ∧
  privates removed !! 200 = privates two_registries !! 200 ∧
  global_slot added = global_slot two_registries ∧
  global_slot removed = global_slot two_registries.
Proof.
  apply (add_remove_leave_other_registries default_host two_registries 100 7 2 12 200).
  discriminate.
Defined.

(** X6 at the sample registry. *)
Lemma add_remove_keep_registry_wellformed_witness :
  (∃ priv', privates (outcome_world
              (gjs_keep_alive_add_child default_host 100 7 4 14 sample_world))
              !! 100 = Some priv' ∧
            idle priv' ∧ unique_children (children priv')) ∧
  (∃ priv', privates (outcome_world
              (gjs_keep_alive_remove_child default_host 100 7 4 14 sample_world))
              !! 100 = Some priv' ∧
            idle priv' ∧ unique_children (children priv')).
Proof.
  apply (add_remove_keep_registry_wellformed default_host sample_world 100 7 4 14
           sample_registry).
  - reflexivity.
  - split; reflexivity.
  - unfold unique_children. apply (bool_decide_unpack _). vm_compute. exact I.
Defined.

(** X7 at an object that is no registry. *)
Lemma calls_need_a_registry_witness :
  gjs_keep_alive_add_child default_host 300 7 1 11 sample_world =
    Abort "priv != NULL" sample_world ∧
  gjs_keep_alive_remove_child default_host 300 7 1 11 sample_world =
    Abort "priv != NULL" sample_world ∧
  (300 ≠ NULL →
   gjs_keep_alive_iterator_init 300 sample_world = Abort "priv != NULL" sample_world ∧
   keep_alive_iterate 300 7 sample_world = Abort "priv != NULL" sample_world).
Proof.
  apply (calls_need_a_registry default_host sample_world 300 7 1 11).
  reflexivity.
Defined.

(** X10 at the sample registry: only the child at handle 1 moves. *)
Lemma trace_moves_every_child_witness :
  ∃ tbl1,
    keep_alive_trace default_host evacuating_tracer 100 sample_world =
      Done () (set_privates
                 <[100 := mkKeepAlive tbl1 (inside_finalize sample_registry) false]>
                 sample_world) ∧
    tbl1 ≡ₚ relocate evacuating_tracer <$> children sample_registry.
Proof.
  apply (trace_moves_every_child default_host evacuating_tracer sample_world 100
           sample_registry).
  - reflexivity.
  - reflexivity.
  - unfold unique_children. apply (bool_decide_unpack _). vm_compute. exact I.
  - intros x y Hx Hy.
    repeat (apply elem_of_cons in Hx as [-> | Hx]);
      try (by apply elem_of_nil in Hx);
      repeat (apply elem_of_cons in Hy as [-> | Hy]);
      try (by apply elem_of_nil in Hy);
      vm_compute; congruence.
Defined.

(** X11 at the sample registry, under GLib's defaults. *)
Lemma finalize_with_quiet_notifiers_witness :
  keep_alive_finalize default_host 100 sample_world =
  match privates sample_world !! 100 with
  | None => Done () sample_world
  | Some priv =>
      Done () (mkWorld (delete 100 (privates sample_world))
                       (global_slot sample_world) (class_defined sample_world)
                       (slice_next sample_world)
                       (log sample_world ++ drain_events (children priv)
                                         ++ [EvTableDestroy []; EvPrivFree]))
  end.
Proof.
  apply (finalize_with_quiet_notifiers default_host).
  intros fn obj user_data. reflexivity.
Defined.

(** X12 at a context that gets its registry with the first lookup. *)
Lemma get_global_is_cached_witness :
  1024 ≠ NULL ∧
  global_slot (with_new_registry 1024 (mkWorld ∅ None false 4096 [])) = Some 1024 ∧
  gjs_keep_alive_get_global_if_exists
      (with_new_registry 1024 (mkWorld ∅ None false 4096 [])) =
    Done 1024 (with_new_registry 1024 (mkWorld ∅ None false 4096 [])) ∧
  ∀ js', gjs_keep_alive_get_global js'
           (with_new_registry 1024 (mkWorld ∅ None false 4096 [])) =
         Done 1024 (with_new_registry 1024 (mkWorld ∅ None false 4096 [])).
Proof.
  apply (get_global_is_cached (mkJSEngine true 512 1024)
           (mkWorld ∅ None false 4096 [])).
  vm_compute. reflexivity.
Defined.

(** X13 at a context without registry whose engine cannot create objects. *)
Lemma registry_creation_failure_is_fatal_witness :
  ∃ msg w',
    gjs_keep_alive_get_global (mkJSEngine true 512 NULL)
        (mkWorld ∅ None false 4096 []) = Abort msg w' ∧
    gjs_keep_alive_add_global_child default_host (mkJSEngine true 512 NULL) 7 1 11
        (mkWorld ∅ None false 4096 []) = Abort msg w' ∧
    gjs_keep_alive_remove_global_child default_host (mkJSEngine true 512 NULL) 7 1 11
        (mkWorld ∅ None false 4096 []) = Abort msg w' ∧
    privates w' = privates (mkWorld ∅ None false 4096 []) ∧
    global_slot w' = global_slot (mkWorld ∅ None false 4096 []).
Proof.
  apply (registry_creation_failure_is_fatal default_host (mkJSEngine true 512 NULL)
           (mkWorld ∅ None false 4096 []) 7 1 11).
  - left. reflexivity.
  - right. right. left. reflexivity.
Defined.

(** X14 at a context that never had a registry. *)
Lemma global_add_then_remove_witness :
  ∃ w1,
    gjs_keep_alive_add_global_child default_host (mkJSEngine true 512 1024) 7 1 11
        (mkWorld ∅ None false 4096 []) = Done () w1 ∧
    global_slot w1 = Some 1024 ∧
    privates w1 = <[1024 := mkKeepAlive [mkKey 4096 (mkChild 1 7 11)] false false]> ∅ ∧
    log w1 = [] ∧
    ∀ js', ∃ w2,
      gjs_keep_alive_remove_global_child default_host js' 7 1 11 w1 = Done () w2 ∧
      global_slot w2 = Some 1024 ∧
      privates w2 = <[1024 := mkKeepAlive [] false false]> ∅ ∧
      log w2 = [] ++ [EvChildFree 4096].
Proof.
  apply (global_add_then_remove default_host (mkJSEngine true 512 1024)
           (mkWorld ∅ None false 4096 []) 7 1 11).
  - reflexivity.
  - split; [reflexivity |]. split; [right; discriminate |].
    split; [discriminate | reflexivity].
Defined.

(** X17 at the sample registry: a third child for notifier 7. *)
Lemma iterate_after_add_witness :
  ∃ w' before after,
    gjs_keep_alive_add_child default_host 100 7 4 14 sample_world = Done () w' ∧
    keep_alive_iterate 100 7 sample_world = Done before sample_world ∧
    keep_alive_iterate 100 7 w' = Done after w' ∧
    after ≡ₚ (if decide (7 = 7) then [(4, 14)] else []) ++ before.
Proof.
  apply (iterate_after_add default_host sample_world 100 7 4 14 sample_registry 7).
  - discriminate.
  - reflexivity.
  - split; reflexivity.
  - apply (bool_decide_unpack _). vm_compute. exact I.
Defined.
